(** * Path movers of [opentis/pathmover.py]

    A shallow embedding of the path-mover module: the input cleaning helper
    [make_list_of_pairs], the [MoveDetails] attribute bag, sample selection,
    the leaf movers (shooting, path reversal, ensemble hop, replica id change,
    replica exchange) and the composite movers (mixed, independent sequential,
    partial-acceptance sequential, conditional sequential).

    Python objects that the movers share and mutate ([SampleSet], and the
    [MoveDetails] a sample refers to) live in an explicit store; exceptions
    are results of type [res]; the random sources and the external
    collaborators thread their state through a state monad. Floats are IEEE
    754 binary64 numbers. *)

From Stdlib Require Import ZArith QArith Qround String Ascii List Lia.
From Stdlib Require Import Floats.SpecFloat.
From stdpp Require Import base gmap strings list.

Local Open Scope string_scope.
Local Open Scope list_scope.
Local Open Scope nat_scope.
Set Warnings "-register-all".

(** ** Exceptions and results *)

(** The built-in exceptions the module can raise. *)
Inductive exn : Type :=
  | NameError
  | TypeError
  | IndexError
  | KeyError
  | ValueError
  | AssertionError
  | AttributeError
  | ZeroDivisionError.

(** [type(e).__name__] *)
Definition exn_name (e : exn) : string :=
  match e with
  | NameError => "NameError"
  | TypeError => "TypeError"
  | IndexError => "IndexError"
  | KeyError => "KeyError"
  | ValueError => "ValueError"
  | AssertionError => "AssertionError"
  | AttributeError => "AttributeError"
  | ZeroDivisionError => "ZeroDivisionError"
  end.

Inductive res (A : Type) : Type :=
  | Ok (a : A)
  | Raise (e : exn).
Arguments Ok {A} a.
Arguments Raise {A} e.

Global Instance res_ret : MRet res := fun A a => Ok a.
Global Instance res_bind : MBind res := fun A B k r =>
  match r with
  | Ok a => k a
  | Raise e => Raise e
  end.

(** [r] is an exception whose class is called [name]. *)
Definition raises_named {A} (r : res A) (name : string) : Prop :=
  exists e, r = Raise e /\ exn_name e = name.

(** [assert c] *)
Definition py_assert (c : bool) : res unit :=
  if c then Ok tt else Raise AssertionError.

(** [seq[i]] on a Python sequence: negative indices count from the end. *)
Definition py_index {A} (seq : list A) (i : Z) : res A :=
  let n := Z.of_nat (length seq) in
  let j := if (i <? 0)%Z then (i + n)%Z else i in
  if ((0 <=? j)%Z && (j <? n)%Z)%bool then
    match seq !! Z.to_nat j with
    | Some x => Ok x
    | None => Raise IndexError
    end
  else Raise IndexError.

(** ** Untyped values, as [make_list_of_pairs] receives them *)

Inductive pyobj : Type :=
  | ONone
  | OObj (id : nat)            (* an object without [__len__], e.g. an ensemble *)
  | OInt (z : Z)
  | OStr (s : string)
  | OList (l : list pyobj)
  | OTuple (l : list pyobj).

Definition str_chars (s : string) : list pyobj :=
  map (fun c => OStr (String c EmptyString)) (list_ascii_of_string s).

(** [len(o)] *)
Definition py_len (o : pyobj) : res nat :=
  match o with
  | OStr s => Ok (String.length s)
  | OList l | OTuple l => Ok (length l)
  | ONone | OObj _ | OInt _ => Raise TypeError
  end.

(** [o[i]] *)
Definition py_getitem (o : pyobj) (i : Z) : res pyobj :=
  match o with
  | OStr s => py_index (str_chars s) i
  | OList l | OTuple l => py_index l i
  | ONone | OObj _ | OInt _ => Raise TypeError
  end.

(** [iter(o)], fully consumed *)
Definition py_iter (o : pyobj) : res (list pyobj) :=
  match o with
  | OStr s => Ok (str_chars s)
  | OList l | OTuple l => Ok l
  | ONone | OObj _ | OInt _ => Raise TypeError
  end.

(** [seq[slice(0, None, 2)]] on the items of a sequence *)
Fixpoint every_other {A} (seq : list A) : list A :=
  match seq with
  | [] => []
  | x :: rest =>
      x :: match rest with
           | [] => []
           | _ :: rest' => every_other rest'
           end
  end.

(** [o[slice(start, None, 2)]] for [start] 0 or 1, as an iterable of items *)
Definition py_slice_step2 (o : pyobj) (start : nat) : res (list pyobj) :=
  match o with
  | OStr s => Ok (every_other (drop start (str_chars s)))
  | OList l | OTuple l => Ok (every_other (drop start l))
  | ONone | OObj _ | OInt _ => Raise TypeError
  end.

(** [for elem in l: assert len(elem)==2, ...] *)
Fixpoint assert_pairs (elems : list pyobj) : res unit :=
  match elems with
  | [] => Ok tt
  | elem :: rest =>
      n ← py_len elem;
      _ ← py_assert (n =? 2);
      assert_pairs rest
  end.

Definition make_list_of_pairs (l : pyobj) : res pyobj :=
  match l with
  | ONone => Ok ONone
  | _ =>
      len_l ← py_len l;
      (* try: len(l[0]) / except TypeError *)
      list_of_lists ←
        match (l0 ← py_getitem l 0; py_len l0) with
        | Ok _ => Ok true
        | Raise TypeError => Ok false
        | Raise e => Raise e
        end;
      if list_of_lists : bool then
        elems ← py_iter l;
        _ ← assert_pairs elems;
        Ok l
      else
        n ← py_len l;
        _ ← py_assert (n mod 2 =? 0);
        evens ← py_slice_step2 l 0;
        odds ← py_slice_step2 l 1;
        Ok (OList (map (fun ab => OList [ab.1; ab.2]) (zip evens odds)))
  end.

(** ** Floats *)

(** A Python float is an IEEE 754 binary64 number: 53 bits of precision,
    rounding to nearest, ties to even. *)
Abbreviation float := spec_float.

Definition float_add : float -> float -> float := SFadd 53 1024.
Definition float_mul : float -> float -> float := SFmul 53 1024.
Definition float_div : float -> float -> float := SFdiv 53 1024.

(** [float(z)] for an integer [z] *)
Definition float_of_Z (z : Z) : float := binary_normalize 53 1024 z 0 false.

(** The literals [0.0] and [1.0] *)
Definition float_zero : float := S754_zero false.
Definition float_one : float := S754_finite false 4503599627370496 (-52).

(** [a / b] on floats: a divisor [0.0] or [-0.0] raises. *)
Definition py_truediv (a b : float) : res float :=
  match b with
  | S754_zero _ => Raise ZeroDivisionError
  | _ => Ok (float_div a b)
  end.

(** The float [k / 2**53] for the 53 random bits [k]: what [random()]
    returns, a number of [0, 1). *)
Definition unit_float (k : N) : float :=
  binary_normalize 53 1024 (Z.of_N (k mod 2 ^ 53)) (-53) false.

(** ** Trajectories, shooting points and attribute values *)

(** Modelled from the spec: the [Trajectory] class is imported from another
    module. A trajectory is an ordered sequence of snapshots that supports
    slicing, concatenation and reversal; snapshots and ensembles are opaque
    objects, named by numbers. *)
Definition Snapshot : Type := Z.
Definition Trajectory : Type := list Snapshot.
Definition ens : Type := nat.

(** Modelled from the spec: the [ShootingPoint] class is imported from
    [shooting]. The record holds the arguments of
    [ShootingPoint(selector, trajectory, index)]; the [sum_bias] and the
    [snapshot] of a point are left to the collaborators ([Runtime]). *)
Record ShootingPoint : Type := mkShootingPoint {
  sp_selector : nat;
  sp_trajectory : Trajectory;
  index : Z
}.

(** The values the movers store in the attributes of a [MoveDetails]. *)
Inductive val : Type :=
  | VNone
  | VBool (b : bool)
  | VInt (z : Z)
  | VFloat (x : float)
  | VStr (s : string)
  | VTraj (t : Trajectory)
  | VTrajList (l : list Trajectory)
  | VPoint (p : ShootingPoint)
  | VMover (id : nat)
  | VEns (e : ens)
  | VEnsList (l : list ens).

Global Instance float_eq_dec : EqDecision float.
Proof. solve_decision. Defined.
Global Instance ShootingPoint_eq_dec : EqDecision ShootingPoint.
Proof. solve_decision. Defined.
Global Instance val_eq_dec : EqDecision val.
Proof. solve_decision. Defined.

(** ** MoveDetails *)

(** A [MoveDetails] object is its attribute dictionary. *)
Abbreviation MoveDetails := (gmap string val).

Definition setattr (self : MoveDetails) (key : string) (value : val)
  : MoveDetails :=
  <[key := value]> self.

Definition getattr (self : MoveDetails) (key : string) : res val :=
  match self !! key with
  | Some v => Ok v
  | None => Raise AttributeError
  end.

(** [key, value = k] for a string [k]: a string unpacks into its characters,
    and there must be exactly two of them. *)
Definition unpack_pair (k : string) : res (string * val) :=
  match k with
  | String c1 (String c2 EmptyString) =>
      Ok (String c1 EmptyString, VStr (String c2 EmptyString))
  | _ => Raise ValueError
  end.

(** [for key, value in kwargs: setattr(self, key, value)]: iterating a dict
    yields its keys. *)
Fixpoint MoveDetails_init_loop (self : MoveDetails) (keys : list string)
  : res MoveDetails :=
  match keys with
  | [] => Ok self
  | k :: rest =>
      kv ← unpack_pair k;
      MoveDetails_init_loop (setattr self kv.1 kv.2) rest
  end.

(** [MoveDetails.__init__(self, **kwargs)]; [kwargs] in iteration order. *)
Definition MoveDetails_init (kwargs : list (string * val)) : res MoveDetails :=
  let self := setattr ∅ "inputs" VNone in
  let self := setattr self "trial" VNone in
  let self := setattr self "result" VNone in
  let self := setattr self "acceptance_probability" VNone in
  let self := setattr self "accepted" VNone in
  let self := setattr self "mover" VNone in
  MoveDetails_init_loop self (map fst kwargs).

(** ** Samples and sample sets *)

(** The address of a [MoveDetails] object in the store. *)
Abbreviation dref := nat (only parsing).

(** Modelled from the spec: the [Sample] class is imported from [sample].
    It is the record (replica, trajectory, ensemble, details) that the
    movers build with keyword arguments, an argument that is not given being
    [None]; [details] refers to a [MoveDetails] object, which the sample
    shares with whoever else holds it; [sample_mover] holds the [mover=]
    keyword that [ReplicaExchange.move] passes. *)
Record Sample : Type := mkSample {
  replica : option Z;
  trajectory : Trajectory;
  ensemble : ens;
  details : option dref;
  sample_mover : option nat
}.

Global Instance Sample_eq_dec : EqDecision Sample.
Proof. solve_decision. Defined.

(** Modelled from the spec: the [SampleSet] (global state) class is imported
    from another module. It holds the currently active samples, answers
    queries by replica and by ensemble, and [apply_samples] merges a list of
    new samples in, each one replacing the prior samples of its replica. *)
Definition SampleSet : Type := list Sample.

Definition replica_list (ss : SampleSet) : list (option Z) :=
  remove_dups (map replica ss).

Definition all_from_replica (ss : SampleSet) (rep : option Z) : list Sample :=
  filter (fun s => replica s = rep) ss.

Definition all_from_ensemble (ss : SampleSet) (e : ens) : list Sample :=
  filter (fun s => ensemble s = e) ss.

Definition apply_sample (ss : SampleSet) (s : Sample) : SampleSet :=
  filter (fun s' => replica s' ≠ replica s) ss ++ [s].

Definition apply_samples (ss : SampleSet) (samples : list Sample) : SampleSet :=
  foldl apply_sample ss samples.

(** What a [move] method returns: [None], one [Sample], or a list of them. *)
Inductive pyval : Type :=
  | PNone
  | PSample (s : Sample)
  | PList (l : list Sample).

(** [mysamples.extend(v)]: [v] has to be iterable. *)
Definition list_extend (mysamples : list Sample) (v : pyval)
  : res (list Sample) :=
  match v with
  | PList l => Ok (mysamples ++ l)
  | PSample _ | PNone => Raise TypeError
  end.

(** [for sample in v] *)
Definition iter_samples (v : pyval) : res (list Sample) :=
  match v with
  | PList l => Ok l
  | PSample _ | PNone => Raise TypeError
  end.

(** [x == False] *)
Definition py_eq_False (x : val) : bool :=
  match x with
  | VBool b => negb b
  | VInt z => (z =? 0)%Z
  | VFloat x => SFeqb x float_zero
  | _ => false
  end.

(** ** Numbers *)

(** [int(x)]: truncation towards zero. *)
Definition py_int (x : Q) : Z := Z.quot (Qnum x) (Zpos (Qden x)).

(** [sum(weights)] on floats: the items are added to [0] from the left. *)
Definition py_sum (weights : list float) : float :=
  foldl float_add float_zero weights.

(** [seq[0:stop]] and [seq[start:]] *)
Definition py_slice_bound (n : nat) (i : Z) : nat :=
  Z.to_nat (if (i <? 0)%Z then Z.max 0 (i + Z.of_nat n) else i).

Definition py_slice_to {A} (seq : list A) (stop : Z) : list A :=
  take (py_slice_bound (length seq) stop) seq.

Definition py_slice_from {A} (seq : list A) (start : Z) : list A :=
  drop (py_slice_bound (length seq) start) seq.

(** ** The world: store, random sources, collaborators *)

(** A random source: what it will return, draw after draw, and how many
    draws were made. *)
Record rng (A : Type) : Type := mkRng {
  rng_stream : nat -> A;
  rng_pos : nat
}.
Arguments mkRng {A} _ _.
Arguments rng_stream {A} _ _.
Arguments rng_pos {A} _.

Definition rng_draw {A} (r : rng A) : A * rng A :=
  (rng_stream r (rng_pos r), mkRng (rng_stream r) (S (rng_pos r))).

(** [heap]: the [SampleSet] objects, by address; [details_heap]: the
    [MoveDetails] objects that samples refer to, by address;
    [random_state]: Python's [random] module, which the module uses through
    [random.choice] only: a draw is the point of [0, 1) that selects the item,
    an idealised number; [np_random_state]: [numpy.random], a draw being the
    53 random bits of the float that [np.random.random()] returns; [ext]: the
    state of the external collaborators (engine, selectors, user-defined
    movers). *)
Record world (E : Type) : Type := mkWorld {
  heap : list SampleSet;
  details_heap : list MoveDetails;
  random_state : rng Q;
  np_random_state : rng N;
  ext : E
}.
Arguments mkWorld {E} _ _ _ _ _.
Arguments heap {E} _.
Arguments details_heap {E} _.
Arguments random_state {E} _.
Arguments np_random_state {E} _.
Arguments ext {E} _.

Definition loc : Type := nat.

(** The names bound in the module's global namespace: its imports, its
    loggers, its function and its classes. *)
Definition pathmover_globals : list string :=
  [ "np"; "random"; "ShootingPoint";
    "ForwardAppendedTrajectoryEnsemble"; "BackwardPrependedTrajectoryEnsemble";
    "FullEnsemble"; "Sample"; "storable"; "logging"; "initialization_logging";
    "logger"; "init_log";
    "make_list_of_pairs"; "MoveDetails"; "PathMover"; "ShootMover";
    "ForwardShootMover"; "BackwardShootMover"; "MixedMover";
    "IndependentSequentialMover"; "PartialAcceptanceSequentialMover";
    "ConditionalSequentialMover"; "ReplicaIDChange"; "EnsembleHopMover";
    "MinusMove"; "PathReversalMover"; "ReplicaExchange"; "PathMoverFactory" ].

(** The collaborators of the module, which it only calls: ensembles as
    predicates, shooting point selectors, the dynamics engine and its
    halting predicates; and the global namespace its code is run in. *)
Class Runtime (E : Type) : Type := {
  module_globals : list string;
  (* ensemble(trajectory) *)
  ensemble_call : ens -> Trajectory -> bool;
  (* selector.pick(trajectory) *)
  selector_pick : nat -> Trajectory -> E -> ShootingPoint * E;
  (* point.sum_bias, a float; point.snapshot *)
  sum_bias : ShootingPoint -> float;
  snapshot : ShootingPoint -> Snapshot;
  (* snapshot.reversed_copy() *)
  reversed_copy : Snapshot -> Snapshot;
  (* PathMover.engine.generate(snapshot, running=[...]) *)
  engine_generate : Snapshot -> list (Trajectory -> bool) -> E -> Trajectory * E;
  (* ForwardAppendedTrajectoryEnsemble(ensemble, prefix).can_append *)
  forward_can_append : ens -> Trajectory -> Trajectory -> bool;
  (* BackwardPrependedTrajectoryEnsemble(ensemble, suffix).can_prepend *)
  backward_can_prepend : ens -> Trajectory -> Trajectory -> bool;
  (* self.length_stopper.can_append, .can_prepend *)
  length_can_append : Trajectory -> bool;
  length_can_prepend : Trajectory -> bool
}.

(** ** The state and exception monad of the movers *)

Definition M (E A : Type) : Type := world E -> res A * world E.

Global Instance M_ret {E} : MRet (M E) := fun A a w => (Ok a, w).
Global Instance M_bind {E} : MBind (M E) := fun A B k c w =>
  match c w with
  | (Ok a, w') => k a w'
  | (Raise e, w') => (Raise e, w')
  end.

(** A computation that only can raise. *)
Definition lift {E A} (r : res A) : M E A := fun w => (r, w).

(** A call into a collaborator. *)
Definition call_ext {E A} (f : E -> A * E) : M E A := fun w =>
  let (a, e') := f (ext w) in
  (Ok a,
   mkWorld (heap w) (details_heap w) (random_state w) (np_random_state w) e').

(** [random.random()] *)
Definition random_random {E} : M E Q := fun w =>
  let (u, r') := rng_draw (random_state w) in
  (Ok u, mkWorld (heap w) (details_heap w) r' (np_random_state w) (ext w)).

(** [np.random.random()] *)
Definition np_random_random {E} : M E float := fun w =>
  let (k, r') := rng_draw (np_random_state w) in
  (Ok (unit_float k),
   mkWorld (heap w) (details_heap w) (random_state w) r' (ext w)).

(** Reading the object a [SampleSet] reference points to. *)
Definition deref {E} (g : loc) : M E SampleSet := fun w =>
  (Ok (default [] (heap w !! g)), w).

(** Allocating a new [SampleSet] object. *)
Definition alloc {E} (ss : SampleSet) : M E loc := fun w =>
  (Ok (length (heap w)),
   mkWorld (heap w ++ [ss]) (details_heap w) (random_state w)
     (np_random_state w) (ext w)).

(** Updating the object of a [SampleSet] reference in place. *)
Definition update {E} (g : loc) (f : SampleSet -> SampleSet) : M E unit :=
  fun w =>
  (Ok tt,
   mkWorld (alter f g (heap w)) (details_heap w) (random_state w)
     (np_random_state w) (ext w)).

(** A [MoveDetails] object enters the store when a sample is made to refer
    to it, in [Sample(..., details=details)]: until then the call that made
    the object holds the only reference to it, and its attribute dictionary
    is carried as a value. *)
Definition new_details {E} (d : MoveDetails) : M E dref := fun w =>
  (Ok (length (details_heap w)),
   mkWorld (heap w) (details_heap w ++ [d]) (random_state w)
     (np_random_state w) (ext w)).

(** [setattr(details, key, value)] on the object [details] refers to: the
    object is changed in place, for all who refer to it. *)
Definition details_setattr {E} (l : dref) (key : string) (value : val)
  : M E unit := fun w =>
  (Ok tt,
   mkWorld (heap w) (alter (fun d => setattr d key value) l (details_heap w))
     (random_state w) (np_random_state w) (ext w)).

(** [getattr(details, key)] on the object [details] refers to. *)
Definition details_getattr {E} (l : dref) (key : string) : M E val := fun w =>
  (getattr (default ∅ (details_heap w !! l)) key, w).

(** The details of [s] as they are in [w]. *)
Definition details_of {E} (w : world E) (s : Sample) : option MoveDetails :=
  l ← details s; details_heap w !! l.

(** [random.choice(seq)], as Python 2 defines it:
    [seq[int(self.random() * len(seq))]], on the idealised draw: what is
    proved of it is that the item is one of [seq], and that an empty [seq]
    raises, not which item it is. *)
Definition random_choice {E A} (seq : list A) : M E A :=
  u ← random_random;
  lift (py_index seq (py_int (u * inject_Z (Z.of_nat (length seq))))).

(** ** PathMover *)

(** [self.replicas]: ['all'] or a list of replica ids. *)
Inductive replicas_t : Type :=
  | AllReplicas
  | Replicas (l : list Z).

(** The attributes [PathMover.__init__] sets; [oid] is the identity of the
    mover object, which [details.mover = self] refers to. *)
Record PathMover : Type := mkPathMover {
  oid : nat;
  replicas : replicas_t;
  ensembles : option (list ens)
}.

(** The [ensembles] argument of [legal_sample_set] and [select_sample]:
    [None], ['all'], one ensemble, or a list. *)
Inductive ensembles_arg : Type :=
  | ArgNone
  | ArgAll
  | ArgEns (e : ens)
  | ArgList (l : list ens).

(** [self.ensembles] passed as the argument *)
Definition self_ensembles (self : PathMover) : ensembles_arg :=
  match ensembles self with
  | None => ArgNone
  | Some l => ArgList l
  end.

(** [list(set(a) & set(b))]; the order of a Python set is not specified, the
    order of [a] stands for it. *)
Definition set_intersection (a b : list Sample) : list Sample :=
  remove_dups (list_intersection a b).

Definition legal_sample_set (self : PathMover) (globalstate : SampleSet)
    (ensembles : ensembles_arg) : list Sample :=
  let reps :=
    match replicas self with
    | AllReplicas => replica_list globalstate
    | Replicas l => map Some l
    end in
  let rep_samples := flat_map (all_from_replica globalstate) reps in
  let ensembles :=
    match ensembles with
    | ArgNone => self_ensembles self
    | _ => ensembles
    end in
  match ensembles with
  | ArgNone | ArgAll => rep_samples
  | ArgEns e =>
      set_intersection rep_samples (flat_map (all_from_ensemble globalstate) [e])
  | ArgList l =>
      set_intersection rep_samples (flat_map (all_from_ensemble globalstate) l)
  end.

Definition select_sample {E} (self : PathMover) (globalstate : SampleSet)
    (ensembles : ensembles_arg) : M E Sample :=
  let legal := legal_sample_set self globalstate ensembles in
  random_choice legal.

(** ** Attribute access with the type the code goes on to use *)

Definition get_traj (d : MoveDetails) (key : string) : res Trajectory :=
  v ← getattr d key;
  match v with
  | VTraj t => Ok t
  | _ => Raise TypeError
  end.

(** [details.<key>.<attribute>]: [None] has no attributes. *)
Definition get_point (d : MoveDetails) (key : string) : res ShootingPoint :=
  v ← getattr d key;
  match v with
  | VPoint p => Ok p
  | _ => Raise AttributeError
  end.

(** [sample.details], for the attribute of it that the code goes on to
    read or set: a list and [None] have no [details], and [None] has no
    attributes. *)
Definition sample_details (v : pyval) : res (Sample * dref) :=
  match v with
  | PSample s =>
      match details s with
      | Some d => Ok (s, d)
      | None => Raise AttributeError
      end
  | PList _ | PNone => Raise AttributeError
  end.

(** ** The movers *)

(** The mover classes of the module. [StubMover] stands for a [PathMover]
    subclass defined elsewhere (as a test would): its [move] reads the sample
    set it is given and the collaborators' state, and returns a value; the
    samples it returns may be samples of the set, or refer to the details
    objects these refer to. *)
Inductive mover (E : Type) : Type :=
  | ForwardShootMover (self : PathMover) (selector : nat)
  | BackwardShootMover (self : PathMover) (selector : nat)
  | MixedMover (self : PathMover) (movers : list (mover E))
      (weights : list float)
  | IndependentSequentialMover (self : PathMover) (movers : list (mover E))
  | PartialAcceptanceSequentialMover (self : PathMover)
      (movers : list (mover E))
  | ConditionalSequentialMover (self : PathMover) (movers : list (mover E))
  | ReplicaIDChange (self : PathMover) (new_replicas : option (gmap Z Z))
      (old_samples : option (gmap Z Sample))
  | EnsembleHopMover (self : PathMover) (pairs : option (list (ens * ens)))
      (bias : option float)
  | MinusMove (self : PathMover)
  | PathReversalMover (self : PathMover)
  | ReplicaExchange (self : PathMover)
  | StubMover (self : PathMover) (f : SampleSet -> E -> res pyval * E).
Arguments ForwardShootMover {E} _ _.
Arguments BackwardShootMover {E} _ _.
Arguments MixedMover {E} _ _ _.
Arguments IndependentSequentialMover {E} _ _.
Arguments PartialAcceptanceSequentialMover {E} _ _.
Arguments ConditionalSequentialMover {E} _ _.
Arguments ReplicaIDChange {E} _ _ _.
Arguments EnsembleHopMover {E} _ _ _.
Arguments MinusMove {E} _.
Arguments PathReversalMover {E} _.
Arguments ReplicaExchange {E} _.
Arguments StubMover {E} _ _.

Section Movers.
Context {E : Type} {RT : Runtime E}.

(** Looking a global name up when the code that mentions it runs. *)
Definition lookup_global (name : string) : res unit :=
  if bool_decide (name ∈ module_globals) then Ok tt else Raise NameError.

(** [SampleSet(samples)] *)
Definition new_SampleSet (samples : list Sample) : M E loc :=
  _ ← lift (lookup_global "SampleSet");
  alloc samples.

(** [subglobal.apply_samples(newsamples)] *)
Definition SampleSet_apply_samples (subglobal : loc) (newsamples : pyval)
  : M E unit :=
  samples ← lift (iter_samples newsamples);
  update subglobal (fun ss => apply_samples ss samples).

(** *** Shooting *)

Definition selection_probability_ratio (details : MoveDetails) : res float :=
  start_point ← get_point details "start_point";
  final_point ← get_point details "final_point";
  py_truediv (sum_bias start_point) (sum_bias final_point).

Definition ForwardShootMover_generate (selector : nat) (details : MoveDetails)
    (ensemble : ens) : M E MoveDetails :=
  start_point ← lift (get_point details "start_point");
  let shooting_point := index start_point in
  start ← lift (get_traj details "start");
  partial_trajectory ← call_ext (engine_generate
    (snapshot start_point)
    [ forward_can_append ensemble (py_slice_to start (index start_point));
      length_can_append ]);
  let trial := py_slice_to start shooting_point ++ partial_trajectory in
  let details := setattr details "trial" (VTraj trial) in
  mret (setattr details "final_point"
          (VPoint (mkShootingPoint selector trial shooting_point))).

Definition BackwardShootMover_generate (selector : nat) (details : MoveDetails)
    (ensemble : ens) : M E MoveDetails :=
  start_point ← lift (get_point details "start_point");
  start ← lift (get_traj details "start");
  partial_trajectory ← call_ext (engine_generate
    (reversed_copy (snapshot start_point))
    [ backward_can_prepend ensemble
        (py_slice_from start (index start_point + 1));
      length_can_prepend ]);
  let trial :=
    rev partial_trajectory ++ py_slice_from start (index start_point + 1) in
  let details := setattr details "trial" (VTraj trial) in
  mret (setattr details "final_point"
          (VPoint (mkShootingPoint selector trial
                     (Z.of_nat (length partial_trajectory) - 1)))).

(** [ShootMover.move], with the [_generate] of the subclass. *)
Definition ShootMover_move
    (generate : MoveDetails -> ens -> M E MoveDetails)
    (self : PathMover) (selector : nat) (globalstate : loc) : M E pyval :=
  gs ← deref globalstate;
  rep_sample ← select_sample self gs (self_ensembles self);
  let trajectory := trajectory rep_sample in
  let dynamics_ensemble := ensemble rep_sample in
  let replica := replica rep_sample in
  details ← lift (MoveDetails_init []);
  let details := setattr details "accepted" (VBool false) in
  let details := setattr details "inputs" (VTrajList [trajectory]) in
  let details := setattr details "mover" (VMover (oid self)) in
  let details := setattr details "start" (VTraj trajectory) in
  start ← lift (get_traj details "start");
  start_point ← call_ext (selector_pick selector start);
  let details := setattr details "start_point" (VPoint start_point) in
  let details := setattr details "final_point" VNone in
  details ← generate details dynamics_ensemble;
  trial ← lift (get_traj details "trial");
  let trial_is_in_ensemble := ensemble_call dynamics_ensemble trial in
  let details :=
    setattr details "trial_is_in_ensemble" (VBool trial_is_in_ensemble) in
  start ← lift (getattr details "start");
  let details := setattr details "result" start in
  details ←
    (if trial_is_in_ensemble then
       rand ← np_random_random;
       sel_prob ← lift (selection_probability_ratio details);
       ratio ← lift (selection_probability_ratio details);
       if SFltb rand ratio then
         let details := setattr details "accepted" (VBool true) in
         trial ← lift (getattr details "trial");
         mret (setattr details "result" trial)
       else mret details
     else mret details);
  result ← lift (get_traj details "result");
  details ← new_details details;
  mret (PSample (mkSample replica result dynamics_ensemble (Some details) None)).

(** *** Path reversal, ensemble hop, replica id change *)

Definition PathReversalMover_move (self : PathMover) (globalstate : loc)
  : M E pyval :=
  gs ← deref globalstate;
  rep_sample ← select_sample self gs (self_ensembles self);
  let trajectory := trajectory rep_sample in
  let ensemble := ensemble rep_sample in
  let replica := replica rep_sample in
  details ← lift (MoveDetails_init []);
  let details := setattr details "inputs" (VTrajList [trajectory]) in
  let details := setattr details "mover" (VMover (oid self)) in
  let reversed_trajectory := rev trajectory in
  let details := setattr details "trial" (VTraj reversed_trajectory) in
  let accepted := ensemble_call ensemble reversed_trajectory in
  let details := setattr details "accepted" (VBool accepted) in
  let details :=
    if accepted then
      let details :=
        setattr details "acceptance_probability" (VFloat float_one) in
      setattr details "result" (VTraj reversed_trajectory)
    else
      let details :=
        setattr details "acceptance_probability" (VFloat float_zero) in
      setattr details "result" (VTraj trajectory) in
  result ← lift (get_traj details "result");
  details ← new_details details;
  mret (PSample (mkSample replica result ensemble (Some details) None)).

Definition EnsembleHopMover_move (self : PathMover)
    (pairs : option (list (ens * ens))) (globalstate : loc) : M E pyval :=
  ens_pair ←
    match pairs with
    | Some l => random_choice l
    | None => _ ← random_random; lift (Raise TypeError)
    end;
  let ens_from := ens_pair.1 in
  let ens_to := ens_pair.2 in
  gs ← deref globalstate;
  rep_sample ← select_sample self gs (ArgEns ens_from);
  let replica := replica rep_sample in
  let trajectory := trajectory rep_sample in
  details ← lift (MoveDetails_init []);
  let details := setattr details "accepted" (VBool false) in
  let details := setattr details "inputs" (VTrajList [trajectory]) in
  let details := setattr details "mover" (VMover (oid self)) in
  let details := setattr details "result" (VTraj trajectory) in
  let details := setattr details "initial_ensemble" (VEns ens_from) in
  let details := setattr details "trial_ensemble" (VEns ens_to) in
  let accepted := ensemble_call ens_to trajectory in
  let details := setattr details "accepted" (VBool accepted) in
  let result_ensemble := if accepted then ens_to else ens_from in
  let details := setattr details "result_ensemble" (VEns result_ensemble) in
  details ← new_details details;
  mret (PSample (mkSample replica trajectory result_ensemble (Some details) None)).

(** [d[key]] for a dict, or [None[key]] *)
Definition dict_getitem {V} (d : option (gmap Z V)) (key : option Z) : res V :=
  match d with
  | None => Raise TypeError
  | Some d =>
      match key with
      | None => Raise KeyError
      | Some k =>
          match d !! k with
          | Some v => Ok v
          | None => Raise KeyError
          end
      end
  end.

Definition ReplicaIDChange_move (self : PathMover)
    (new_replicas : option (gmap Z Z)) (old_samples : option (gmap Z Sample))
    (globalstate : loc) : M E pyval :=
  gs ← deref globalstate;
  rep_sample ← select_sample self gs (self_ensembles self);
  new_rep ← lift (dict_getitem new_replicas (replica rep_sample));
  old_sample ← lift (dict_getitem old_samples (replica rep_sample));
  details ← lift (MoveDetails_init []);
  let details := setattr details "inputs" (VTraj (trajectory rep_sample)) in
  let dead_sample :=
    mkSample (replica rep_sample) (trajectory old_sample) (ensemble old_sample)
      None None in
  let new_sample :=
    mkSample (Some new_rep) (trajectory rep_sample) (ensemble rep_sample)
      None None in
  mret (PList [dead_sample; new_sample]).

(** *** Replica exchange *)

(** The body of [ReplicaExchange.move] for a value of its local variable
    [accepted]. *)
Definition ReplicaExchange_move_with (accepted : bool) (self : PathMover)
    (trajectory1 trajectory2 : Trajectory) (ensemble1 ensemble2 : ens)
  : M E (list Sample) :=
  details1 ← lift (MoveDetails_init []);
  details2 ← lift (MoveDetails_init []);
  let details1 :=
    setattr details1 "inputs" (VTrajList [trajectory1; trajectory2]) in
  let details2 :=
    setattr details2 "inputs" (VTrajList [trajectory1; trajectory2]) in
  let details1 := setattr details1 "ensembles" (VEnsList [ensemble1; ensemble2]) in
  let details2 := setattr details2 "ensembles" (VEnsList [ensemble1; ensemble2]) in
  let details1 := setattr details1 "mover" (VMover (oid self)) in
  let details2 := setattr details2 "mover" (VMover (oid self)) in
  let details2 := setattr details2 "trial" (VTraj trajectory1) in
  let details1 := setattr details1 "trial" (VTraj trajectory2) in
  let '(details1, details2) :=
    if accepted then
      let details1 := setattr details1 "accepted" (VBool true) in
      let details2 := setattr details2 "accepted" (VBool true) in
      let details1 :=
        setattr details1 "acceptance_probability" (VFloat float_one) in
      let details2 :=
        setattr details2 "acceptance_probability" (VFloat float_one) in
      let details1 := setattr details1 "result" (VTraj trajectory2) in
      let details2 := setattr details2 "result" (VTraj trajectory1) in
      (details1, details2)
    else
      let details1 := setattr details1 "accepted" (VBool false) in
      let details2 := setattr details2 "accepted" (VBool false) in
      let details1 :=
        setattr details1 "acceptance_probability" (VFloat float_zero) in
      let details2 :=
        setattr details2 "acceptance_probability" (VFloat float_zero) in
      let details1 := setattr details1 "result" (VTraj trajectory1) in
      let details2 := setattr details2 "result" (VTraj trajectory2) in
      (details1, details2) in
  result1 ← lift (get_traj details1 "result");
  details1 ← new_details details1;
  let sample1 :=
    mkSample None result1 ensemble1 (Some details1) (Some (oid self)) in
  result2 ← lift (get_traj details2 "result");
  details2 ← new_details details2;
  let sample2 :=
    mkSample None result2 ensemble2 (Some details2) (Some (oid self)) in
  mret [sample1; sample2].

(** [ReplicaExchange.move(trajectory1, trajectory2, ensemble1, ensemble2)]:
    the code sets [accepted = True]. *)
Definition ReplicaExchange_move : PathMover -> Trajectory -> Trajectory ->
    ens -> ens -> M E (list Sample) :=
  ReplicaExchange_move_with true.

(** *** Composite movers *)

(** The [while] loop of [MixedMover.move]; it ends within [len(weights)]
    rounds, which [steps] counts down. *)
Fixpoint pick_index (weights : list float) (rand : float) (steps : nat)
    (idx : nat) (prob : float) : res nat :=
  if (SFleb prob rand && (idx <? length weights))%bool then
    match steps with
    | O => Raise IndexError
    | S steps' =>
        let idx := S idx in
        match weights !! idx with
        | None => Raise IndexError
        | Some w => pick_index weights rand steps' idx (float_add prob w)
        end
    end
  else Ok idx.

(** [self.movers[idx].move(globalstate)] *)
Fixpoint move_nth (mv : mover E -> loc -> M E pyval) (movers : list (mover E))
    (idx : nat) (globalstate : loc) : M E pyval :=
  match movers with
  | [] => lift (Raise IndexError)
  | m :: rest =>
      match idx with
      | O => mv m globalstate
      | S idx' => move_nth mv rest idx' globalstate
      end
  end.

(** [MixedMover.move]; the code calls its parameter [trajectory], and hands
    it to the sub-mover as the global state. The weights are floats, as the
    default [[1.0] * len(movers)] is. [mover_idx] is set on the details object
    of the sample the sub-mover returned, which the new sample refers to as
    well. *)
Definition MixedMover_move (mv : mover E -> loc -> M E pyval)
    (self : PathMover) (movers : list (mover E)) (weights : list float)
    (globalstate : loc) : M E pyval :=
  r ← np_random_random;
  let rand := float_mul r (py_sum weights) in
  prob ← lift (py_index weights 0);
  idx ← lift (pick_index weights rand (length weights) 0 prob);
  sample ← move_nth mv movers idx globalstate;
  sd ← lift (sample_details sample);
  _ ← details_setattr sd.2 "mover_idx" (VInt (Z.of_nat idx));
  mret (PSample (mkSample (replica sd.1) (trajectory sd.1)
                   (ensemble sd.1) (Some sd.2) None)).

(** The [for mover in self.movers] loop of [IndependentSequentialMover.move]. *)
Fixpoint independent_loop (mv : mover E -> loc -> M E pyval) (subglobal : loc)
    (movers : list (mover E)) (mysamples : list Sample) : M E pyval :=
  match movers with
  | [] => mret (PList mysamples)
  | mover :: rest =>
      newsamples ← mv mover subglobal;
      _ ← SampleSet_apply_samples subglobal newsamples;
      more ← mv mover subglobal;
      mysamples ← lift (list_extend mysamples more);
      independent_loop mv subglobal rest mysamples
  end.

Definition IndependentSequentialMover_move (mv : mover E -> loc -> M E pyval)
    (self : PathMover) (movers : list (mover E)) (globalstate : loc)
  : M E pyval :=
  gs ← deref globalstate;
  subglobal ← new_SampleSet (legal_sample_set self gs ArgNone);
  independent_loop mv subglobal movers [].

(** The [for sample in newsamples] loop of
    [PartialAcceptanceSequentialMover.move]; the boolean is [last_accepted]. *)
Fixpoint partial_inner_loop (newsamples : list Sample)
    (mysamples : list Sample) : M E (list Sample * bool) :=
  match newsamples with
  | [] => mret (mysamples, true)
  | sample :: rest =>
      mysamples ← lift (list_extend mysamples (PSample sample));
      sd ← lift (sample_details (PSample sample));
      accepted ← details_getattr sd.2 "accepted";
      if py_eq_False accepted then mret (mysamples, false)
      else partial_inner_loop rest mysamples
  end.

Fixpoint partial_loop (mv : mover E -> loc -> M E pyval) (subglobal : loc)
    (movers : list (mover E)) (mysamples : list Sample) : M E pyval :=
  match movers with
  | [] => mret (PList mysamples)
  | mover :: rest =>
      newsamples ← mv mover subglobal;
      samples ← lift (iter_samples newsamples);
      r ← partial_inner_loop samples mysamples;
      let '(mysamples, last_accepted) := r in
      if negb last_accepted then mret (PList mysamples)
      else partial_loop mv subglobal rest mysamples
  end.

Definition PartialAcceptanceSequentialMover_move
    (mv : mover E -> loc -> M E pyval) (self : PathMover)
    (movers : list (mover E)) (globalstate : loc) : M E pyval :=
  gs ← deref globalstate;
  subglobal ← new_SampleSet (legal_sample_set self gs ArgNone);
  partial_loop mv subglobal movers [].

(** [PartialAcceptanceSequentialMover.__init__]; [self] holds what
    [PathMover.__init__] would set. The class the code hands to [super] is
    spelt [PartialAccpetanceSequentialMover]. *)
Definition PartialAcceptanceSequentialMover_init (self : PathMover)
    (movers : list (mover E)) : res (mover E) :=
  _ ← lookup_global "PartialAccpetanceSequentialMover";
  Ok (PartialAcceptanceSequentialMover self movers).

(** *** Dispatch of [mover.move(globalstate)] *)

Fixpoint move (m : mover E) (globalstate : loc) {struct m} : M E pyval :=
  match m with
  | ForwardShootMover self selector =>
      ShootMover_move (ForwardShootMover_generate selector) self selector
        globalstate
  | BackwardShootMover self selector =>
      ShootMover_move (BackwardShootMover_generate selector) self selector
        globalstate
  | MixedMover self movers weights =>
      MixedMover_move move self movers weights globalstate
  | IndependentSequentialMover self movers =>
      IndependentSequentialMover_move move self movers globalstate
  | PartialAcceptanceSequentialMover self movers =>
      PartialAcceptanceSequentialMover_move move self movers globalstate
  | ConditionalSequentialMover self movers =>
      (* pass *)
      mret PNone
  | ReplicaIDChange self new_replicas old_samples =>
      ReplicaIDChange_move self new_replicas old_samples globalstate
  | EnsembleHopMover self pairs bias =>
      EnsembleHopMover_move self pairs globalstate
  | MinusMove self =>
      (* move(self, allpaths, state) called with one argument *)
      lift (Raise TypeError)
  | PathReversalMover self => PathReversalMover_move self globalstate
  | ReplicaExchange self =>
      (* move(self, trajectory1, trajectory2, ensemble1, ensemble2) called
         with one argument *)
      lift (Raise TypeError)
  | StubMover self f =>
      gs ← deref globalstate;
      call_ext (f gs) ≫= lift
  end.

End Movers.

(** ** Concrete collaborators and states, for evaluation *)

Module Fixture.

(** The collaborators' state is the log of the stub movers that ran. *)
Definition E : Type := list nat.

(** Ensemble 0 holds every trajectory, ensemble 1 the trajectories that end
    at a snapshot of at least 10, ensemble 2 none. The selectors pick frame
    1; a point's [sum_bias] is the number of frames of its trajectory; the
    engine generates three frames, counting up from the snapshot. *)
Definition runtime (globals : list string) : Runtime E := {|
  module_globals := globals;
  ensemble_call e t :=
    match e with
    | 0 => true
    | 1 => match last t with Some x => (10 <=? x)%Z | None => false end
    | _ => false
    end;
  selector_pick sel t log := (mkShootingPoint sel t 1, log);
  sum_bias p := float_of_Z (Z.of_nat (length (sp_trajectory p)));
  snapshot p := default 0%Z (sp_trajectory p !! Z.to_nat (index p));
  reversed_copy s := (- s)%Z;
  engine_generate s running log := ([s; s + 1; s + 2]%Z, log);
  forward_can_append e prefix t := true;
  backward_can_prepend e suffix t := true;
  length_can_append t := true;
  length_can_prepend t := true
|}.

(** The module as it is written, and the module with [SampleSet] bound in
    its namespace as well. *)
Definition source_runtime : Runtime E := runtime pathmover_globals.
Definition bound_runtime : Runtime E := runtime ("SampleSet" :: pathmover_globals).

Definition all_movers (id : nat) : PathMover := mkPathMover id AllReplicas None.

Definition sample0 : Sample := mkSample (Some 0%Z) [8; 9; 10; 11]%Z 0 None None.
Definition sample1 : Sample := mkSample (Some 1%Z) [20; 3]%Z 1 None None.

Definition constant_rng {A} (x : A) : rng A := mkRng (fun _ => x) 0.

(** The details objects the stub movers' samples refer to: one that says
    accepted, at address 0, and one that says rejected, at address 1. *)
Definition stub_details : list MoveDetails :=
  [setattr ∅ "accepted" (VBool true); setattr ∅ "accepted" (VBool false)].

(** One global state object, holding [samples], and the details objects of
    the stubs; [random.choice] selects at the point 0, and
    [np.random.random()] returns the float of [0, 1) just below or at [u],
    at every draw. *)
Definition world_of (samples : SampleSet) (u : Q) : world E :=
  mkWorld [samples] stub_details (constant_rng 0%Q)
    (constant_rng (Z.to_N (Qfloor (u * inject_Z (2 ^ 53))))) [].

(** A sample as a stub mover returns it, with its [details.accepted]. *)
Definition stub_sample (rep : Z) (accepted : bool) : Sample :=
  mkSample (Some rep) [rep] 0 (Some (if accepted then 0 else 1)) None.

(** A stub mover that logs its call and returns the list [out]. *)
Definition stub (id : nat) (out : list Sample) : mover E :=
  StubMover (all_movers id) (fun gs log => (Ok (PList out), log ++ [id])).

Definition A : mover E := stub 1 [stub_sample 1 true].
Definition B : mover E := stub 2 [stub_sample 2 false].
Definition C : mover E := stub 3 [stub_sample 3 true].

(** A stub mover whose sample tells how many stub calls came before its
    own: its trajectory is the length of the log. *)
Definition counting_stub (id : nat) : mover E :=
  StubMover (all_movers id) (fun gs log =>
    (Ok (PList [mkSample (Some 0%Z) [Z.of_nat (length log)] 0 (Some 0) None]),
     log ++ [id])).

(** A sample of the global state that refers to the details object at
    address 0. *)
Definition sample2 : Sample := mkSample (Some 2%Z) [5; 6]%Z 0 (Some 0) None.


(** The value of a run that returned. *)
Definition value_of (r : res pyval * world E) : pyval :=
  match r.1 with
  | Ok v => v
  | Raise _ => PNone
  end.

(** The sample of a run that returned one. *)
Definition sample_of (r : res pyval * world E) : Sample :=
  match r.1 with
  | Ok (PSample s) => s
  | _ => sample0
  end.

End Fixture.

(** ** What the keyword loop of [MoveDetails.__init__] amounts to *)

(** The attribute a keyword name of two characters ends up setting. *)
Definition setattr_chars (self : MoveDetails) (k : string) : MoveDetails :=
  match k with
  | String c1 (String c2 _) =>
      setattr self (String c1 EmptyString) (VStr (String c2 EmptyString))
  | _ => self
  end.

(** [v] is a list of samples, what the docstring of [PathMover.move]
    announces. *)
Definition is_sample_list (v : pyval) : Prop := exists l, v = PList l.

(** The movers whose [move] ends in [return path] or [return sample]. *)
Definition returns_its_sample {E} (m : mover E) : Prop :=
  match m with
  | ForwardShootMover _ _ | BackwardShootMover _ _ | MixedMover _ _ _
  | EnsembleHopMover _ _ _ | PathReversalMover _ => True
  | _ => False
  end.

(** A shooting mover, forward or backward. *)
Definition shoot_mover {E} (forward : bool) (self : PathMover)
    (selector : nat) : mover E :=
  if forward then ForwardShootMover self selector
  else BackwardShootMover self selector.

(** The movers made of the classes of the module alone, without a mover
    defined elsewhere among their sub-movers. *)
Fixpoint module_mover {E} (m : mover E) : bool :=
  match m with
  | StubMover _ _ => false
  | MixedMover _ movers _
  | IndependentSequentialMover _ movers
  | PartialAcceptanceSequentialMover _ movers
  | ConditionalSequentialMover _ movers => forallb module_mover movers
  | _ => true
  end.

(** ** The frame of a computation *)

(** The sub-movers a composite mover holds. *)
Definition sub_movers {E} (m : mover E) : list (mover E) :=
  match m with
  | MixedMover _ movers _
  | IndependentSequentialMover _ movers
  | PartialAcceptanceSequentialMover _ movers
  | ConditionalSequentialMover _ movers => movers
  | _ => []
  end.




(** [c] keeps the first [n] details objects of the store, up to [R], in
    whatever world it runs and whether it returns or raises. *)
Definition details_below {E A}
    (R : option MoveDetails -> option MoveDetails -> Prop) (n : nat)
    (c : M E A) : Prop :=
  forall w : world E,
    n <= length (details_heap w) ->
    n <= length (details_heap (c w).2)
    /\ forall l : dref,
         l < n -> R (details_heap w !! l) (details_heap (c w).2 !! l).

(** The details of a sample that [c] returns are an object made during the
    run of [c]. *)
Definition fresh_details {E} (c : M E pyval) : Prop :=
  forall (w : world E) (s : Sample) (w' : world E),
    c w = (Ok (PSample s), w') ->
    exists l : dref,
      details s = Some l
      /\ length (details_heap w) <= l < length (details_heap w').


(** What both [_generate] methods do to the details: they set [trial] and
    [final_point], and leave the store and numpy's random source alone. *)
Definition generates {E} (generate : MoveDetails -> ens -> M E MoveDetails)
  : Prop :=
  forall d e w1 d' w2,
    generate d e w1 = (Ok d', w2) ->
    exists trial fp,
      d' = setattr (setattr d "trial" (VTraj trial)) "final_point" (VPoint fp)
      /\ heap w2 = heap w1 /\ details_heap w2 = details_heap w1
      /\ np_random_state w2 = np_random_state w1.

(** [c] returns from [w], with a value and in a world that satisfy [Q]. *)
Definition returns {E A} (c : M E A) (w : world E) (Q : A -> world E -> Prop)
  : Prop :=
  exists a w', c w = (Ok a, w') /\ Q a w'.

(** ** Vocabulary of the further properties *)

(** The replica of [s] is one [self.replicas] admits. *)
Definition replica_allowed (self : PathMover) (s : Sample) : Prop :=
  match replicas self with
  | AllReplicas => True
  | Replicas l => exists z, z ∈ l /\ replica s = Some z
  end.

(** The ensemble of [s] is one the [ensembles] argument admits, the
    argument [None] standing for [self.ensembles]. *)
Definition ensemble_allowed (self : PathMover) (ensembles : ensembles_arg)
    (s : Sample) : Prop :=
  match ensembles, self_ensembles self with
  | ArgAll, _ | ArgNone, ArgNone | ArgNone, ArgAll => True
  | ArgEns e, _ | ArgNone, ArgEns e => ensemble s = e
  | ArgList l, _ | ArgNone, ArgList l => ensemble s ∈ l
  end.

(** [weights[0] + ... + weights[k]], added in the order of the loop of
    [MixedMover.move]. *)
Definition partial_sum (weights : list float) (k : nat) : float :=
  match weights with
  | [] => float_zero
  | w0 :: rest => foldl float_add w0 (take k rest)
  end.

(** What [c] does from [w]: it returns a value and a world that satisfy
    [Q], or raises an exception that, with the world, satisfies [R]. *)
Definition outcome {E A} (c : M E A) (w : world E)
    (Q : A -> world E -> Prop) (R : exn -> world E -> Prop) : Prop :=
  match c w with
  | (Ok a, w') => Q a w'
  | (Raise e, w') => R e w'
  end.

(** [min(a, b)] on floats: [b] when [b < a], [a] otherwise. *)
Definition py_min (a b : float) : float := if SFltb b a then b else a.

(** The worlds that differ from [w] in the state of Python's [random]
    module only, one number having been drawn. *)
Definition after_one_draw {E} (w w' : world E) : Prop :=
  heap w' = heap w
  /\ details_heap w' = details_heap w
  /\ np_random_state w' = np_random_state w
  /\ ext w' = ext w
  /\ random_state w' = (rng_draw (random_state w)).2.

(** The worlds that differ from [w] in one number drawn from Python's
    [random] module and in one new details object, [d]. *)
Definition after_draw_and_details {E} (w w' : world E) (d : MoveDetails)
  : Prop :=
  heap w' = heap w
  /\ details_heap w' = details_heap w ++ [d]
  /\ np_random_state w' = np_random_state w
  /\ ext w' = ext w
  /\ random_state w' = (rng_draw (random_state w)).2.

(** The trajectory of [s] is in the ensemble of [s]. *)
Definition in_its_ensemble {E} {RT : Runtime E} (s : Sample) : Prop :=
  ensemble_call (ensemble s) (trajectory s) = true.

(** The movers that propose a trajectory for one sample and test it:
    shooting, path reversal, ensemble hop, and mixtures of these. *)
Fixpoint proposes_one {E} (m : mover E) : bool :=
  match m with
  | ForwardShootMover _ _ | BackwardShootMover _ _
  | EnsembleHopMover _ _ _ | PathReversalMover _ => true
  | MixedMover _ movers _ => forallb proposes_one movers
  | _ => false
  end.

(** * Properties *)

(** ** Sequences and [make_list_of_pairs] *)

Lemma py_index_nil {A} (i : Z) : py_index (@nil A) i = Raise IndexError.
Proof.
  unfold py_index. simpl.
  destruct (_ && _)%bool; reflexivity.
Qed.

Lemma py_index_0 {A} (x : A) (l : list A) : py_index (x :: l) 0 = Ok x.
Proof.
  reflexivity.
Qed.

(** A flat list of four items without a length is paired up. *)
Lemma make_list_of_pairs_flat4 (a b c d : pyobj) :
  py_len a = Raise TypeError ->
  make_list_of_pairs (OList [a; b; c; d])
  = Ok (OList [OList [a; b]; OList [c; d]]).
Proof.
  intros Ha. unfold make_list_of_pairs. simpl.
  rewrite Ha. reflexivity.
Qed.

(** A flat list of three items without a length fails the assertion. *)
Lemma make_list_of_pairs_flat3 (a b c : pyobj) :
  py_len a = Raise TypeError ->
  make_list_of_pairs (OList [a; b; c]) = Raise AssertionError.
Proof.
  intros Ha. unfold make_list_of_pairs. simpl.
  rewrite Ha. reflexivity.
Qed.

(** A list of two pairs is returned as it is. *)
Lemma make_list_of_pairs_pairs2 (a b c d : pyobj) :
  make_list_of_pairs (OList [OList [a; b]; OList [c; d]])
  = Ok (OList [OList [a; b]; OList [c; d]]).
Proof. reflexivity. Qed.

(** In general: a flat list of odd length, whose first item has no length,
    fails the assertion. *)
Lemma make_list_of_pairs_odd (a : pyobj) (l : list pyobj) :
  py_len a = Raise TypeError ->
  Nat.Odd (length (a :: l)) ->
  make_list_of_pairs (OList (a :: l)) = Raise AssertionError.
Proof.
  intros Ha Hodd. unfold make_list_of_pairs.
  cbn [py_len py_getitem]. rewrite py_index_0.
  unfold mbind, res_bind. rewrite Ha.
  assert ((length (a :: l) mod 2 =? 0) = false) as Hm.
  { apply Nat.eqb_neq. intros Hz.
    apply Nat.Div0.mod_divides in Hz. destruct Hz as [k Hk].
    destruct Hodd as [k' Hk']. lia. }
  rewrite Hm. reflexivity.
Qed.

(** C8 (as amended): [make_list_of_pairs] pairs up a flat list [[a,b,c,d]]
    whose items have no length into [[[a,b],[c,d]]], returns a list of two
    pairs as it is, returns [None] for [None], and on a flat list [[a,b,c]]
    of odd length fails its assertion: it raises [AssertionError]. *)
Theorem make_list_of_pairs_cases (a b c d : pyobj) :
  py_len a = Raise TypeError ->
  make_list_of_pairs (OList [a; b; c; d])
    = Ok (OList [OList [a; b]; OList [c; d]])
  /\ make_list_of_pairs (OList [OList [a; b]; OList [c; d]])
    = Ok (OList [OList [a; b]; OList [c; d]])
  /\ make_list_of_pairs ONone = Ok ONone
  /\ make_list_of_pairs (OList [a; b; c]) = Raise AssertionError
  /\ raises_named (make_list_of_pairs (OList [a; b; c])) "AssertionError".
Proof.
  intros Ha. split; [|split; [|split; [|split]]].
  - by apply make_list_of_pairs_flat4.
  - apply make_list_of_pairs_pairs2.
  - reflexivity.
  - by apply make_list_of_pairs_flat3.
  - exists AssertionError. split; [|reflexivity].
    by apply make_list_of_pairs_flat3.
Qed.

Lemma make_list_of_pairs_cases_witness :
  make_list_of_pairs (OList [OObj 1; OObj 2; OObj 3; OObj 4])
    = Ok (OList [OList [OObj 1; OObj 2]; OList [OObj 3; OObj 4]])
  /\ make_list_of_pairs (OList [OList [OObj 1; OObj 2]; OList [OObj 3; OObj 4]])
    = Ok (OList [OList [OObj 1; OObj 2]; OList [OObj 3; OObj 4]])
  /\ make_list_of_pairs ONone = Ok ONone
  /\ make_list_of_pairs (OList [OObj 1; OObj 2; OObj 3]) = Raise AssertionError
  /\ raises_named (make_list_of_pairs (OList [OObj 1; OObj 2; OObj 3]))
       "AssertionError".
Proof.
  apply (make_list_of_pairs_cases (OObj 1) (OObj 2) (OObj 3) (OObj 4)).
  reflexivity.
Defined.

(** C8 as stated fails: on the flat list of three objects the exception is
    not an [InvalidConfigurationError]. *)
Lemma make_list_of_pairs_odd_not_InvalidConfigurationError :
  ~ raises_named (make_list_of_pairs (OList [OObj 1; OObj 2; OObj 3]))
      "InvalidConfigurationError".
Proof.
  intros [e [He Hname]]. vm_compute in He.
  inversion He; subst e. vm_compute in Hname. discriminate Hname.
Qed.

(** ** [MoveDetails.__init__] *)

Lemma unpack_pair_two (k : string) :
  String.length k = 2 ->
  exists c1 c2, k = String c1 (String c2 EmptyString)
    /\ unpack_pair k
       = Ok (String c1 EmptyString, VStr (String c2 EmptyString)).
Proof.
  destruct k as [|c1 [|c2 [|c3 k]]]; simpl; try discriminate.
  intros _. by exists c1, c2.
Qed.

Lemma unpack_pair_not_two (k : string) :
  String.length k <> 2 -> unpack_pair k = Raise ValueError.
Proof.
  destruct k as [|c1 [|c2 [|c3 k]]]; simpl; try reflexivity.
  intros Hn. by destruct Hn.
Qed.

Lemma MoveDetails_init_loop_raises (keys : list string) :
  Exists (fun k => String.length k <> 2) keys ->
  forall self, MoveDetails_init_loop self keys = Raise ValueError.
Proof.
  induction keys as [|k keys IH]; intros Hex self.
  - inversion Hex.
  - simpl. destruct (decide (String.length k = 2)) as [Hk|Hk].
    + destruct (unpack_pair_two k Hk) as (c1 & c2 & -> & ->). simpl.
      apply IH. inversion Hex as [? ? Hbad|]; [|assumption].
      simpl in Hbad. by destruct Hbad.
    + by rewrite (unpack_pair_not_two k Hk).
Qed.

Lemma MoveDetails_init_loop_two (keys : list string) :
  Forall (fun k => String.length k = 2) keys ->
  forall self,
    MoveDetails_init_loop self keys = Ok (foldl setattr_chars self keys).
Proof.
  induction keys as [|k keys IH]; intros Hall self.
  - reflexivity.
  - inversion Hall as [|? ? Hk Hrest]; subst.
    destruct (unpack_pair_two k Hk) as (c1 & c2 & -> & Hu).
    simpl. by rewrite IH.
Qed.

Lemma MoveDetails_init_loop_ok (keys : list string) self d :
  MoveDetails_init_loop self keys = Ok d ->
  Forall (fun k => String.length k = 2) keys.
Proof.
  revert self. induction keys as [|k keys IH]; intros self Hok.
  - constructor.
  - simpl in Hok. destruct (decide (String.length k = 2)) as [Hk|Hk].
    + constructor; [assumption|].
      destruct (unpack_pair_two k Hk) as (c1 & c2 & -> & Hu).
      simpl in Hok. by eapply IH.
    + by rewrite (unpack_pair_not_two k Hk) in Hok.
Qed.

(** The attributes set from keyword names have one character: a name of
    another length is not touched. *)
Lemma foldl_setattr_chars_other (keys : list string) (self : MoveDetails)
    (k : string) :
  String.length k <> 1 ->
  foldl setattr_chars self keys !! k = self !! k.
Proof.
  intros Hk. revert self. induction keys as [|k' keys IH]; intros self.
  - reflexivity.
  - simpl. rewrite IH. unfold setattr_chars.
    destruct k' as [|c1 [|c2 k']]; try reflexivity.
    unfold setattr. apply lookup_insert_ne.
    intros <-. by destruct Hk.
Qed.

(** C10: without keyword arguments the constructor sets [inputs], [trial],
    [result], [acceptance_probability], [accepted] and [mover] to [None].
    With keyword arguments it unpacks each keyword name: a name that is not
    two characters long makes it raise [ValueError]; a name of two characters
    sets the attribute called by the first character to the second character;
    and in no case the attribute called by the keyword name is set. *)
Theorem MoveDetails_init_kwargs :
  exists d0 : MoveDetails,
    MoveDetails_init [] = Ok d0
    /\ d0 !! "inputs" = Some VNone
    /\ d0 !! "trial" = Some VNone
    /\ d0 !! "result" = Some VNone
    /\ d0 !! "acceptance_probability" = Some VNone
    /\ d0 !! "accepted" = Some VNone
    /\ d0 !! "mover" = Some VNone
    /\ (forall c1 c2 v,
          MoveDetails_init [(String c1 (String c2 EmptyString), v)]
          = Ok (setattr d0 (String c1 EmptyString)
                  (VStr (String c2 EmptyString))))
    /\ forall kwargs : list (string * val),
         (Exists (fun kv => String.length kv.1 <> 2) kwargs ->
          MoveDetails_init kwargs = Raise ValueError)
         /\ (Forall (fun kv => String.length kv.1 = 2) kwargs ->
             MoveDetails_init kwargs
             = Ok (foldl setattr_chars d0 (map fst kwargs)))
         /\ (forall d k v,
               MoveDetails_init kwargs = Ok d -> (k, v) ∈ kwargs ->
               d !! k = None).
Proof.
  eexists. split; [reflexivity|].
  do 6 (split; [reflexivity|]).
  split; [reflexivity|].
  intros kwargs. split; [|split].
  - intros Hex. unfold MoveDetails_init.
    apply MoveDetails_init_loop_raises. by apply Exists_fmap.
  - intros Hall. unfold MoveDetails_init.
    apply MoveDetails_init_loop_two. by apply Forall_fmap.
  - intros d k v Hok Hin. unfold MoveDetails_init in Hok.
    pose proof (MoveDetails_init_loop_ok _ _ _ Hok) as Hall.
    rewrite (MoveDetails_init_loop_two _ Hall) in Hok.
    injection Hok as <-.
    assert (String.length k = 2) as Hk.
    { rewrite Forall_forall in Hall. apply Hall.
      apply list_elem_of_fmap. by exists (k, v). }
    rewrite foldl_setattr_chars_other by lia.
    unfold setattr.
    rewrite !lookup_insert_ne by (intros <-; discriminate Hk).
    apply lookup_empty.
Qed.

Lemma MoveDetails_init_kwargs_witness :
  MoveDetails_init [("accepted", VBool true)] = Raise ValueError
  /\ exists d, MoveDetails_init [("ab", VInt 1)] = Ok d
       /\ d !! "a" = Some (VStr "b") /\ d !! "ab" = None.
Proof.
  destruct MoveDetails_init_kwargs
    as (d0 & _ & _ & _ & _ & _ & _ & _ & Hone & Hkw).
  split.
  - apply (Hkw [("accepted", VBool true)]).
    apply Exists_cons_hd. simpl. lia.
  - exists (setattr d0 "a" (VStr "b")). split; [apply Hone|]. split.
    + apply lookup_insert_eq.
    + apply (proj2 (proj2 (Hkw [("ab", VInt 1)])) _ "ab" (VInt 1)).
      * apply Hone.
      * apply list_elem_of_here.
Defined.

(** ** [select_sample] *)

(** C6 (as amended): when the legal sample set is empty, [select_sample]
    fails with the [IndexError] that [random.choice] raises on an empty
    sequence, whatever the world is. *)
Theorem select_sample_empty {E} (self : PathMover) (globalstate : SampleSet)
    (ensembles : ensembles_arg) (w : world E) :
  legal_sample_set self globalstate ensembles = [] ->
  (select_sample self globalstate ensembles w).1 = Raise IndexError
  /\ raises_named (select_sample self globalstate ensembles w).1 "IndexError"
  /\ heap (select_sample self globalstate ensembles w).2 = heap w.
Proof.
  intros Hempty. unfold select_sample. rewrite Hempty.
  unfold random_choice, mbind, M_bind, random_random, lift.
  destruct (rng_draw (random_state w)) as [u r'].
  rewrite py_index_nil. simpl. split; [reflexivity|]. split; [|reflexivity].
  by exists IndexError.
Qed.

Lemma select_sample_empty_witness :
  (select_sample (Fixture.all_movers 0) [] ArgNone
     (Fixture.world_of [] 0)).1 = Raise IndexError
  /\ raises_named (select_sample (Fixture.all_movers 0) [] ArgNone
       (Fixture.world_of [] 0)).1 "IndexError"
  /\ heap (select_sample (Fixture.all_movers 0) [] ArgNone
       (Fixture.world_of [] 0)).2 = heap (Fixture.world_of [] 0).
Proof.
  apply (select_sample_empty (Fixture.all_movers 0) [] ArgNone
           (Fixture.world_of [] 0)).
  reflexivity.
Defined.

(** C6 as stated fails: with no sample in the state the legal set is empty,
    and what [select_sample] raises is not an [EmptySelectionError]. *)
Lemma select_sample_empty_not_EmptySelectionError :
  legal_sample_set (Fixture.all_movers 0) [] ArgNone = []
  /\ ~ raises_named (select_sample (Fixture.all_movers 0) [] ArgNone
         (Fixture.world_of [] 0)).1 "EmptySelectionError".
Proof.
  split; [reflexivity|].
  intros [e [He Hname]]. vm_compute in He.
  inversion He; subst e. vm_compute in Hname. discriminate Hname.
Qed.

(** ** Induction on movers *)

(** A property holds of every mover when it holds of a mover as soon as it
    holds of its sub-movers. *)
Fixpoint mover_sub_ind {E} (P : mover E -> Prop)
    (step : forall m, Forall P (sub_movers m) -> P m) (m : mover E)
    {struct m} : P m :=
  let all :=
    fix all (l : list (mover E)) : Forall P l :=
      match l with
      | [] => List.Forall_nil P
      | x :: rest =>
          List.Forall_cons P x rest (mover_sub_ind P step x) (all rest)
      end in
  step m
    match m as m0 return Forall P (sub_movers m0) with
    | MixedMover _ movers _ => all movers
    | IndependentSequentialMover _ movers => all movers
    | PartialAcceptanceSequentialMover _ movers => all movers
    | ConditionalSequentialMover _ movers => all movers
    | _ => List.Forall_nil P
    end.

(** ** Running a computation step by step *)

Lemma MoveDetails_init_nil : exists d0, MoveDetails_init [] = Ok d0.
Proof. eexists. reflexivity. Qed.

Section Steps.
Context {E : Type}.

Lemma bind_Ok {A B} (c : M E A) (k : A -> M E B) w v w' :
  (c ≫= k) w = (Ok v, w') ->
  exists a w1, c w = (Ok a, w1) /\ k a w1 = (Ok v, w').
Proof.
  unfold mbind, M_bind. destruct (c w) as [[a|e] w1]; intros H.
  - by exists a, w1.
  - discriminate H.
Qed.

Lemma lift_Ok {A} (r : res A) (w : world E) a w1 :
  lift r w = (Ok a, w1) -> r = Ok a /\ w1 = w.
Proof. unfold lift. intros H. by injection H as -> ->. Qed.

Lemma ret_Ok {A} (x : A) (w : world E) a w1 :
  (mret x : M E A) w = (Ok a, w1) -> a = x /\ w1 = w.
Proof. unfold mret, M_ret. intros H. by injection H as <- <-. Qed.

Lemma deref_Ok (g : loc) (w : world E) a w1 :
  deref g w = (Ok a, w1) -> a = default [] (heap w !! g) /\ w1 = w.
Proof. unfold deref. intros H. by injection H as <- <-. Qed.

Lemma call_ext_Ok {A} (f : E -> A * E) (w : world E) a w1 :
  call_ext f w = (Ok a, w1) ->
  f (ext w) = (a, ext w1)
  /\ heap w1 = heap w /\ random_state w1 = random_state w
  /\ np_random_state w1 = np_random_state w
  /\ details_heap w1 = details_heap w.
Proof.
  unfold call_ext. destruct (f (ext w)) as [a' e']. intros H.
  by injection H as <- <-.
Qed.

Lemma np_random_random_Ok (w : world E) u w1 :
  np_random_random w = (Ok u, w1) ->
  u = unit_float
        (rng_stream (np_random_state w) (rng_pos (np_random_state w)))
  /\ rng_pos (np_random_state w1) = S (rng_pos (np_random_state w))
  /\ rng_stream (np_random_state w1) = rng_stream (np_random_state w)
  /\ heap w1 = heap w /\ random_state w1 = random_state w /\ ext w1 = ext w
  /\ details_heap w1 = details_heap w.
Proof. unfold np_random_random. simpl. intros H. by injection H as <- <-. Qed.

Lemma new_details_Ok (d : MoveDetails) (w : world E) l w1 :
  new_details d w = (Ok l, w1) ->
  l = length (details_heap w)
  /\ details_heap w1 = details_heap w ++ [d]
  /\ heap w1 = heap w /\ random_state w1 = random_state w
  /\ np_random_state w1 = np_random_state w /\ ext w1 = ext w.
Proof. unfold new_details. intros H. by injection H as <- <-. Qed.

Lemma details_setattr_Ok (l : dref) k v (w : world E) u w1 :
  details_setattr l k v w = (Ok u, w1) ->
  details_heap w1 = alter (fun d => setattr d k v) l (details_heap w)
  /\ heap w1 = heap w /\ random_state w1 = random_state w
  /\ np_random_state w1 = np_random_state w /\ ext w1 = ext w.
Proof. unfold details_setattr. intros H. by injection H as <- <-. Qed.

Lemma py_index_Ok {A} (seq : list A) (i : Z) (x : A) :
  py_index seq i = Ok x -> x ∈ seq.
Proof.
  unfold py_index. destruct (_ && _)%bool; [|discriminate].
  destruct (seq !! _) as [y|] eqn:Hy; [|discriminate].
  intros H. injection H as <-. by eapply list_elem_of_lookup_2.
Qed.

Lemma random_choice_Ok {A} (seq : list A) (w : world E) x w1 :
  random_choice seq w = (Ok x, w1) ->
  x ∈ seq /\ heap w1 = heap w /\ np_random_state w1 = np_random_state w
  /\ ext w1 = ext w /\ details_heap w1 = details_heap w.
Proof.
  unfold random_choice. intros H.
  apply bind_Ok in H as (u & w2 & Hu & H).
  apply lift_Ok in H as [Hx ->].
  unfold random_random in Hu. simpl in Hu. injection Hu as <- <-.
  split; [by eapply py_index_Ok|]. by simpl.
Qed.

Lemma select_sample_Ok self gs ensembles (w : world E) s w1 :
  select_sample self gs ensembles w = (Ok s, w1) ->
  s ∈ legal_sample_set self gs ensembles
  /\ heap w1 = heap w /\ np_random_state w1 = np_random_state w
  /\ ext w1 = ext w /\ details_heap w1 = details_heap w.
Proof. apply random_choice_Ok. Qed.

Lemma getattr_setattr_eq (d : MoveDetails) k v :
  getattr (setattr d k v) k = Ok v.
Proof. unfold getattr, setattr. by rewrite lookup_insert_eq. Qed.

Lemma getattr_setattr_ne (d : MoveDetails) k k' v :
  k <> k' -> getattr (setattr d k v) k' = getattr d k'.
Proof. intros Hk. unfold getattr, setattr. by rewrite lookup_insert_ne. Qed.

Lemma lookup_setattr_eq (d : MoveDetails) k v :
  setattr d k v !! k = Some v.
Proof. apply lookup_insert_eq. Qed.

Lemma lookup_setattr_ne (d : MoveDetails) k k' v :
  k <> k' -> setattr d k v !! k' = d !! k'.
Proof. intros Hk. by apply lookup_insert_ne. Qed.

Lemma get_traj_setattr_eq (d : MoveDetails) k t :
  get_traj (setattr d k (VTraj t)) k = Ok t.
Proof. unfold get_traj. by rewrite getattr_setattr_eq. Qed.

Lemma get_traj_setattr_ne (d : MoveDetails) k k' v :
  k <> k' -> get_traj (setattr d k v) k' = get_traj d k'.
Proof. intros Hk. unfold get_traj. by rewrite getattr_setattr_ne. Qed.

Lemma get_point_setattr_eq (d : MoveDetails) k p :
  get_point (setattr d k (VPoint p)) k = Ok p.
Proof. unfold get_point. by rewrite getattr_setattr_eq. Qed.

Lemma get_point_setattr_ne (d : MoveDetails) k k' v :
  k <> k' -> get_point (setattr d k v) k' = get_point d k'.
Proof. intros Hk. unfold get_point. by rewrite getattr_setattr_ne. Qed.

(** The details of a sample that refers to an object made after those of
    [h], the first or the second. *)
Lemma details_of_new (w : world E) (h rest : list MoveDetails)
    (d : MoveDetails) (s : Sample) :
  details_heap w = h ++ d :: rest -> details s = Some (length h) ->
  details_of w s = Some d.
Proof.
  intros Hw Hs. unfold details_of. rewrite Hs, Hw. simpl.
  rewrite lookup_app_r by lia. by rewrite Nat.sub_diag.
Qed.

Lemma details_of_new_2 (w : world E) (h rest : list MoveDetails)
    (d1 d2 : MoveDetails) (s : Sample) :
  details_heap w = h ++ d1 :: d2 :: rest -> details s = Some (S (length h)) ->
  details_of w s = Some d2.
Proof.
  intros Hw Hs. unfold details_of. rewrite Hs, Hw. simpl.
  rewrite lookup_app_r by lia.
  by replace (S (length h) - length h) with 1 by lia.
Qed.

End Steps.

(** Reading attributes through the assignments made before. *)
Ltac attrs :=
  repeat first
    [ rewrite get_traj_setattr_eq
    | rewrite get_traj_setattr_ne by discriminate
    | rewrite get_point_setattr_eq
    | rewrite get_point_setattr_ne by discriminate
    | rewrite getattr_setattr_eq
    | rewrite getattr_setattr_ne by discriminate
    | rewrite lookup_setattr_eq
    | rewrite lookup_setattr_ne by discriminate ].

(** ** The store is framed *)

Section Frame.
Context {E : Type} {RT : Runtime E}.

(** *** The sample sets *)






























(** *** The details objects *)

Section Details.
Variable R : option MoveDetails -> option MoveDetails -> Prop.
Hypothesis R_refl : forall d, R d d.
Hypothesis R_trans : forall d1 d2 d3, R d1 d2 -> R d2 d3 -> R d1 d3.

Lemma details_below_bind {A B} (n : nat) (c : M E A) (k : A -> M E B) :
  details_below R n c -> (forall a, details_below R n (k a)) ->
  details_below R n (c ≫= k).
Proof.
  intros Hc Hk w Hn. unfold mbind, M_bind.
  destruct (Hc w Hn) as [Hlen Hsame].
  destruct (c w) as [[a|e] w1]; simpl in *.
  - destruct (Hk a w1 Hlen) as [Hlen' Hsame']. split; [assumption|].
    intros l Hl. eapply R_trans; [by apply Hsame|by apply Hsame'].
  - by split.
Qed.

Lemma details_below_ret {A} (n : nat) (a : A) :
  details_below R n (mret a : M E A).
Proof. intros w Hn. by split. Qed.

Lemma details_below_lift {A} (n : nat) (r : res A) :
  details_below R n (lift r : M E A).
Proof. intros w Hn. by split. Qed.

Lemma details_below_call_ext {A} (n : nat) (f : E -> A * E) :
  details_below R n (call_ext f).
Proof. intros w Hn. unfold call_ext. destruct (f (ext w)). by split. Qed.

Lemma details_below_random_random (n : nat) :
  details_below R n (random_random : M E Q).
Proof. intros w Hn. by split. Qed.

Lemma details_below_np_random_random (n : nat) :
  details_below R n (np_random_random : M E float).
Proof. intros w Hn. by split. Qed.

Lemma details_below_deref (n : nat) (g : loc) :
  details_below R n (deref g : M E SampleSet).
Proof. intros w Hn. by split. Qed.

Lemma details_below_alloc (n : nat) (ss : SampleSet) :
  details_below R n (alloc ss : M E loc).
Proof. intros w Hn. by split. Qed.

Lemma details_below_update (n : nat) (g : loc) (f : SampleSet -> SampleSet) :
  details_below R n (update g f : M E unit).
Proof. intros w Hn. by split. Qed.

Lemma details_below_details_getattr (n : nat) (l : dref) k :
  details_below R n (details_getattr l k : M E val).
Proof. intros w Hn. by split. Qed.

(** A new object lies above every [n] within the store. *)
Lemma details_below_new_details (n : nat) (d : MoveDetails) :
  details_below R n (new_details d : M E dref).
Proof.
  intros w Hn. unfold new_details. simpl. split.
  - rewrite length_app. lia.
  - intros l Hl. rewrite lookup_app_l by lia. apply R_refl.
Qed.

(** Setting an attribute of an object at or above [n] is out of the
    frame. *)
Lemma details_below_details_setattr (n : nat) (l : dref) k v :
  n <= l -> details_below R n (details_setattr l k v : M E unit).
Proof.
  intros Hl w Hn. unfold details_setattr. simpl. split.
  - by rewrite length_alter.
  - intros l' Hl'. rewrite list_lookup_alter_ne by lia. apply R_refl.
Qed.

Ltac details_step :=
  first
    [ apply details_below_ret
    | apply details_below_lift
    | apply details_below_call_ext
    | apply details_below_random_random
    | apply details_below_np_random_random
    | apply details_below_deref
    | apply details_below_alloc
    | apply details_below_update
    | apply details_below_new_details
    | apply details_below_details_getattr
    | apply details_below_bind; [|intros ?]
    | progress cbv zeta
    | match goal with
      | |- details_below _ _ (if ?b then _ else _) => destruct b
      | |- details_below _ _ (match ?x with _ => _ end) => destruct x
      end ].

Ltac details_frame := repeat details_step.

Lemma details_below_select_sample (n : nat) self gs ensembles :
  details_below R n (select_sample self gs ensembles : M E Sample).
Proof. unfold select_sample, random_choice. details_frame. Qed.

Lemma details_below_ShootMover_move n generate self selector globalstate :
  (forall details ensemble, details_below R n (generate details ensemble)) ->
  details_below R n (ShootMover_move generate self selector globalstate).
Proof.
  intros Hgen. unfold ShootMover_move, select_sample, random_choice.
  details_frame. apply Hgen.
Qed.

Lemma details_below_ForwardShootMover_generate n selector details ensemble :
  details_below R n (ForwardShootMover_generate selector details ensemble).
Proof. unfold ForwardShootMover_generate. details_frame. Qed.

Lemma details_below_BackwardShootMover_generate n selector details ensemble :
  details_below R n (BackwardShootMover_generate selector details ensemble).
Proof. unfold BackwardShootMover_generate. details_frame. Qed.

Lemma details_below_PathReversalMover_move n self globalstate :
  details_below R n (PathReversalMover_move self globalstate).
Proof.
  unfold PathReversalMover_move, select_sample, random_choice. details_frame.
Qed.

Lemma details_below_EnsembleHopMover_move n self pairs globalstate :
  details_below R n (EnsembleHopMover_move self pairs globalstate).
Proof.
  unfold EnsembleHopMover_move, select_sample, random_choice. details_frame.
Qed.

Lemma details_below_ReplicaIDChange_move n self new_replicas old_samples
    globalstate :
  details_below R n
    (ReplicaIDChange_move self new_replicas old_samples globalstate
       : M E pyval).
Proof.
  unfold ReplicaIDChange_move, select_sample, random_choice. details_frame.
Qed.

Lemma details_below_move_nth (mv : mover E -> loc -> M E pyval) n movers idx
    globalstate :
  Forall (fun m => forall g n, details_below R n (mv m g)) movers ->
  details_below R n (move_nth mv movers idx globalstate).
Proof.
  intros Hall. revert idx.
  induction Hall as [|m rest Hm Hrest IH]; intros idx; simpl.
  - apply details_below_lift.
  - destruct idx; [apply Hm|apply IH].
Qed.

Lemma details_below_independent_loop (mv : mover E -> loc -> M E pyval) n
    subglobal movers mysamples :
  Forall (fun m => forall g n, details_below R n (mv m g)) movers ->
  details_below R n (independent_loop mv subglobal movers mysamples).
Proof.
  intros Hall. revert mysamples.
  induction Hall as [|m rest Hm Hrest IH]; intros mysamples; simpl.
  - apply details_below_ret.
  - apply details_below_bind; [apply Hm|intros newsamples].
    apply details_below_bind;
      [unfold SampleSet_apply_samples; details_frame|intros _].
    apply details_below_bind; [apply Hm|intros more].
    apply details_below_bind; [apply details_below_lift|intros mysamples'].
    apply IH.
Qed.

Lemma details_below_partial_inner_loop n newsamples mysamples :
  details_below R n (partial_inner_loop newsamples mysamples
                       : M E (list Sample * bool)).
Proof.
  revert mysamples.
  induction newsamples as [|s rest IH]; intros mysamples; simpl.
  - apply details_below_ret.
  - details_frame; apply IH.
Qed.

Lemma details_below_partial_loop (mv : mover E -> loc -> M E pyval) n
    subglobal movers mysamples :
  Forall (fun m => forall g n, details_below R n (mv m g)) movers ->
  details_below R n (partial_loop mv subglobal movers mysamples).
Proof.
  intros Hall. revert mysamples.
  induction Hall as [|m rest Hm Hrest IH]; intros mysamples; simpl.
  - apply details_below_ret.
  - apply details_below_bind; [apply Hm|intros newsamples].
    apply details_below_bind; [apply details_below_lift|intros samples].
    apply details_below_bind;
      [apply details_below_partial_inner_loop|intros [acc last]].
    destruct (negb last); [apply details_below_ret|apply IH].
Qed.

(** The movers other than [MixedMover], given their sub-movers. *)
Lemma details_below_move_but_mixed (m : mover E) g n :
  (forall self movers weights, m <> MixedMover self movers weights) ->
  Forall (fun m => forall g n, details_below R n (move m g)) (sub_movers m) ->
  details_below R n (move m g).
Proof.
  intros Hmixed IH. destruct m; simpl in *.
  - apply details_below_ShootMover_move.
    intros; apply details_below_ForwardShootMover_generate.
  - apply details_below_ShootMover_move.
    intros; apply details_below_BackwardShootMover_generate.
  - by destruct (Hmixed self movers weights).
  - unfold IndependentSequentialMover_move, new_SampleSet.
    apply details_below_bind; [apply details_below_deref|intros gs].
    apply details_below_bind; [details_frame|intros subglobal].
    by apply details_below_independent_loop.
  - unfold PartialAcceptanceSequentialMover_move, new_SampleSet.
    apply details_below_bind; [apply details_below_deref|intros gs].
    apply details_below_bind; [details_frame|intros subglobal].
    by apply details_below_partial_loop.
  - apply details_below_ret.
  - apply details_below_ReplicaIDChange_move.
  - apply details_below_EnsembleHopMover_move.
  - apply details_below_lift.
  - apply details_below_PathReversalMover_move.
  - apply details_below_lift.
  - details_frame.
Qed.




(** *** The details of the sample a mover of the module returns are new *)

Lemma move_nth_Ok (mv : mover E -> loc -> M E pyval) movers idx g
    (w : world E) r w' :
  move_nth mv movers idx g w = (r, w') ->
  (exists m, movers !! idx = Some m /\ mv m g w = (r, w'))
  \/ (movers !! idx = None /\ r = Raise IndexError /\ w' = w).
Proof.
  revert idx. induction movers as [|m movers IH]; intros idx H.
  - right. simpl in H. unfold lift in H. injection H as <- <-.
    by destruct idx.
  - destruct idx as [|idx]; simpl in H.
    + left. by exists m.
    + by apply IH.
Qed.

Lemma fresh_details_bind {A} (c : M E A) (k : A -> M E pyval) :
  (forall n, details_below R n c) -> (forall a, fresh_details (k a)) ->
  fresh_details (c ≫= k).
Proof.
  intros Hc Hk w s w' H.
  apply bind_Ok in H as (a & w1 & Ha & H).
  destruct (Hc (length (details_heap w)) w (le_n _)) as [Hlen _].
  rewrite Ha in Hlen. simpl in Hlen.
  destruct (Hk a w1 s w' H) as (l & Hl & Hge).
  exists l. split; [assumption|lia].
Qed.

Lemma fresh_details_new (d : MoveDetails) (mk : dref -> Sample) :
  (forall l, details (mk l) = Some l) ->
  fresh_details (new_details d ≫= fun l => mret (PSample (mk l)) : M E pyval).
Proof.
  intros Hmk w s w' H.
  apply bind_Ok in H as (l & w1 & Hl & H).
  apply new_details_Ok in Hl as (-> & Hdh & _).
  apply ret_Ok in H as [[= ->] ->].
  eexists. split; [apply Hmk|]. rewrite Hdh, length_app. simpl. lia.
Qed.

Ltac fresh_step :=
  first
    [ apply fresh_details_new; reflexivity
    | apply fresh_details_bind;
        [ intros ?; unfold select_sample, random_choice; details_frame; auto
        | intros ? ]
    | progress cbv zeta ].

Lemma fresh_details_ShootMover_move generate self selector globalstate :
  (forall details ensemble n, details_below R n (generate details ensemble)) ->
  fresh_details (ShootMover_move generate self selector globalstate).
Proof.
  intros Hgen. unfold ShootMover_move. repeat fresh_step.
Qed.

Lemma fresh_details_PathReversalMover_move self globalstate :
  fresh_details (PathReversalMover_move self globalstate).
Proof. unfold PathReversalMover_move. repeat fresh_step. Qed.

Lemma fresh_details_EnsembleHopMover_move self pairs globalstate :
  fresh_details (EnsembleHopMover_move self pairs globalstate).
Proof. unfold EnsembleHopMover_move. repeat fresh_step. Qed.

(** [MixedMover.move] returns a sample that refers to the details of the
    sample its sub-mover returned. *)
Lemma fresh_details_MixedMover_move (mv : mover E -> loc -> M E pyval) self
    movers weights globalstate :
  Forall (fun m => forall g, fresh_details (mv m g)) movers ->
  fresh_details (MixedMover_move mv self movers weights globalstate).
Proof.
  intros Hall w s w' H. unfold MixedMover_move in H.
  apply bind_Ok in H as (r & w1 & Hr & H).
  apply np_random_random_Ok in Hr as (_ & _ & _ & _ & _ & _ & Hdh).
  cbv zeta in H.
  apply bind_Ok in H as (prob & w2 & Hprob & H).
  apply lift_Ok in Hprob as [_ ->].
  apply bind_Ok in H as (idx & w2 & Hidx & H).
  apply lift_Ok in Hidx as [_ ->].
  apply bind_Ok in H as (sample & w2 & Hm & H).
  apply move_nth_Ok in Hm as [(m & Hm & Hmv)|(_ & [=] & _)].
  apply bind_Ok in H as ([s0 l] & w3 & Hsd & H).
  apply lift_Ok in Hsd as [Hsd ->].
  apply bind_Ok in H as (? & w3 & Hset & H).
  apply details_setattr_Ok in Hset as (Hdh3 & _).
  apply ret_Ok in H as [[= ->] ->].
  unfold sample_details in Hsd.
  destruct sample as [|s1|]; try discriminate Hsd.
  destruct (details s1) as [l1|] eqn:Hd; [|discriminate Hsd].
  injection Hsd as <- <-.
  rewrite Forall_forall in Hall.
  destruct (Hall m (list_elem_of_lookup_2 _ _ _ Hm) globalstate w1 s1 w2 Hmv)
    as (l & Hl & Hge).
  exists l1. split; [reflexivity|]. rewrite Hd in Hl. injection Hl as ->.
  rewrite Hdh3, length_alter. by rewrite <- Hdh.
Qed.

(** A sub-mover that returns a sample with new details lets [MixedMover.move]
    set [mover_idx] out of the frame. *)
Lemma details_below_fresh_MixedMover_move (mv : mover E -> loc -> M E pyval)
    n self movers weights globalstate :
  Forall (fun m => forall g n, details_below R n (mv m g)) movers ->
  Forall (fun m => forall g, fresh_details (mv m g)) movers ->
  details_below R n (MixedMover_move mv self movers weights globalstate).
Proof.
  intros Hd Hf w Hn. unfold MixedMover_move. cbv zeta.
  unfold mbind, M_bind, lift.
  destruct (np_random_random w) as [[r|e] w1] eqn:Hr;
    [|unfold np_random_random in Hr; simpl in Hr; discriminate Hr].
  apply np_random_random_Ok in Hr as (_ & _ & _ & _ & _ & _ & Hdh).
  assert (forall h2 : list MoveDetails,
            n <= length h2
            /\ (forall l, l < n -> R (details_heap w1 !! l) (h2 !! l)) ->
            n <= length h2
            /\ (forall l, l < n -> R (details_heap w !! l) (h2 !! l)))
    as Hfrom.
  { intros h2 [Hlen Hsame]. split; [assumption|].
    intros l Hl. rewrite <- Hdh. by apply Hsame. }
  assert (n <= length (details_heap w1)) as Hn1 by (by rewrite Hdh).
  assert (n <= length (details_heap w1)
          /\ (forall l, l < n ->
                R (details_heap w1 !! l) (details_heap w1 !! l))) as Hhere
    by (by split).
  destruct (py_index weights 0) as [prob|e]; [|by apply Hfrom].
  destruct (pick_index _ _ _ _ _) as [idx|e]; [|by apply Hfrom].
  pose proof (details_below_move_nth mv n movers idx globalstate Hd w1 Hn1)
    as Hmv.
  destruct (move_nth mv movers idx globalstate w1) as [[sample|e] w2] eqn:Hrun;
    simpl in Hmv; [|by apply Hfrom].
  destruct (sample_details sample) as [[s l]|e] eqn:Hsd; [|by apply Hfrom].
  simpl. apply Hfrom. destruct Hmv as [Hlen Hsame].
  assert (n <= l) as Hl.
  { apply move_nth_Ok in Hrun as [(m & Hm & Hrun)|(_ & [=] & _)].
    unfold sample_details in Hsd.
    destruct sample as [|s1|]; try discriminate Hsd.
    destruct (details s1) as [l1|] eqn:Hd1; [|discriminate Hsd].
    injection Hsd as <- <-.
    rewrite Forall_forall in Hf.
    destruct (Hf m (list_elem_of_lookup_2 _ _ _ Hm) globalstate w1 s1 w2 Hrun)
      as (l & Hl & Hge).
    rewrite Hd1 in Hl. injection Hl as ->. lia. }
  split; [by rewrite length_alter|].
  intros l' Hl'. rewrite list_lookup_alter_ne by lia. by apply Hsame.
Qed.

Lemma independent_loop_list (mv : mover E -> loc -> M E pyval) subglobal
    movers mysamples (w : world E) v w' :
  independent_loop mv subglobal movers mysamples w = (Ok v, w') ->
  exists l, v = PList l.
Proof.
  revert mysamples w. induction movers as [|m rest IH]; intros mysamples w H.
  - apply ret_Ok in H as [-> _]. eauto.
  - simpl in H. do 4 apply bind_Ok in H as (? & ? & _ & H). by eapply IH.
Qed.

Lemma partial_loop_list (mv : mover E -> loc -> M E pyval) subglobal
    movers mysamples (w : world E) v w' :
  partial_loop mv subglobal movers mysamples w = (Ok v, w') ->
  exists l, v = PList l.
Proof.
  revert mysamples w. induction movers as [|m rest IH]; intros mysamples w H.
  - apply ret_Ok in H as [-> _]. eauto.
  - simpl in H. do 2 apply bind_Ok in H as (? & ? & _ & H).
    apply bind_Ok in H as ([acc last] & ? & _ & H). destruct (negb last).
    + apply ret_Ok in H as [-> _]. eauto.
    + by eapply IH.
Qed.

(** A mover of the module keeps the details objects, and the details of a
    sample that it returns are new. *)
Lemma module_move_details (m : mover E) :
  module_mover m = true ->
  (forall g n, details_below R n (move m g))
  /\ (forall g, fresh_details (move m g)).
Proof.
  induction m as [m IH] using mover_sub_ind. intros Hm.
  assert (Forall (fun m => module_mover m = true) (sub_movers m)) as Hsub.
  { destruct m; simpl in *; try (by constructor);
      rewrite Forall_forall; intros x Hx; rewrite forallb_forall in Hm;
      apply Hm; by apply list_elem_of_In. }
  assert (Forall (fun m => forall g n, details_below R n (move m g))
            (sub_movers m)) as Hd.
  { rewrite Forall_forall in *. intros x Hx. by apply (IH x Hx (Hsub x Hx)). }
  assert (Forall (fun m => forall g, fresh_details (move m g))
            (sub_movers m)) as Hf.
  { rewrite Forall_forall in *. intros x Hx. by apply (IH x Hx (Hsub x Hx)). }
  split.
  - intros g n.
    destruct m;
      try (apply details_below_move_but_mixed; [by intros|assumption]).
    simpl in *. by apply details_below_fresh_MixedMover_move.
  - intros g. destruct m; simpl in *.
    + apply fresh_details_ShootMover_move.
      intros; apply details_below_ForwardShootMover_generate.
    + apply fresh_details_ShootMover_move.
      intros; apply details_below_BackwardShootMover_generate.
    + by apply fresh_details_MixedMover_move.
    + intros w s w' H. unfold IndependentSequentialMover_move in H.
      do 2 apply bind_Ok in H as (? & ? & _ & H).
      by apply independent_loop_list in H as [l [=]].
    + intros w s w' H. unfold PartialAcceptanceSequentialMover_move in H.
      do 2 apply bind_Ok in H as (? & ? & _ & H).
      by apply partial_loop_list in H as [l [=]].
    + intros w s w' H. by apply ret_Ok in H as [[=] _].
    + intros w s w' H. unfold ReplicaIDChange_move in H.
      repeat (apply bind_Ok in H as (? & ? & _ & H); cbv zeta in H).
      by apply ret_Ok in H as [[=] _].
    + apply fresh_details_EnsembleHopMover_move.
    + intros w s w' H. discriminate H.
    + apply fresh_details_PathReversalMover_move.
    + intros w s w' H. discriminate H.
    + discriminate Hm.
Qed.

End Details.







End Frame.




(** ** [ReplicaExchange.move] *)

(** C9: [ReplicaExchange.move(t1, t2, e1, e2)] returns exactly two samples,
    under [e1] and [e2]; when the move is accepted (as the code always
    decides) their trajectories are [t2] and [t1], when it is rejected they
    are [t1] and [t2]; both carry the same [accepted] flag and the inputs
    [[t1, t2]], each in a details object of its own, the two new objects of
    the store. *)
Theorem ReplicaExchange_move_two_samples {E} (self : PathMover)
    (t1 t2 : Trajectory) (e1 e2 : ens) (w : world E) :
  ReplicaExchange_move self t1 t2 e1 e2 w
    = ReplicaExchange_move_with true self t1 t2 e1 e2 w
  /\ forall accepted : bool,
     exists s1 s2 d1 d2 w',
       ReplicaExchange_move_with accepted self t1 t2 e1 e2 w
       = (Ok [s1; s2], w')
       /\ details_of w' s1 = Some d1 /\ details_of w' s2 = Some d2
       /\ ensemble s1 = e1 /\ ensemble s2 = e2
       /\ trajectory s1 = (if accepted then t2 else t1)
       /\ trajectory s2 = (if accepted then t1 else t2)
       /\ d1 !! "accepted" = Some (VBool accepted)
       /\ d2 !! "accepted" = Some (VBool accepted)
       /\ d1 !! "inputs" = Some (VTrajList [t1; t2])
       /\ d2 !! "inputs" = Some (VTrajList [t1; t2])
       /\ details s1 <> details s2
       /\ details_heap w' = details_heap w ++ [d1; d2]
       /\ heap w' = heap w.
Proof.
  split; [reflexivity|]. intros accepted.
  unfold ReplicaExchange_move_with.
  destruct MoveDetails_init_nil as [d0 Hd0]. rewrite Hd0.
  unfold mbind, M_bind, lift, new_details.
  destruct accepted; attrs;
    cbn [mret M_ret heap details_heap random_state np_random_state ext];
    rewrite <- app_assoc, length_app, Nat.add_1_r; cbn [app length];
    eexists _, _, _, _, _; (split; [reflexivity|]);
    (split; [eapply details_of_new; reflexivity|]);
    (split; [eapply details_of_new_2; reflexivity|]);
    do 4 (split; [reflexivity|]);
    do 4 (split; [by attrs|]);
    (split; [simpl; intros [=]; lia|]);
    by split.
Qed.

(** ** Floats: the draws of [0, 1) and the order *)

Lemma digits2_pos_le (p : positive) :
  forall n : Z, (0 <= n)%Z -> (Zpos p < 2 ^ n)%Z ->
  (Zpos (digits2_pos p) <= n)%Z.
Proof.
  induction p as [p IH|p IH|]; intros n Hn Hp; simpl.
  - assert (n <> 0)%Z as Hn0 by (intros ->; simpl in Hp; lia).
    replace n with (Z.succ (n - 1)) in Hp by lia.
    rewrite Z.pow_succ_r in Hp by lia.
    specialize (IH (n - 1)%Z ltac:(lia) ltac:(lia)). lia.
  - assert (n <> 0)%Z as Hn0 by (intros ->; simpl in Hp; lia).
    replace n with (Z.succ (n - 1)) in Hp by lia.
    rewrite Z.pow_succ_r in Hp by lia.
    specialize (IH (n - 1)%Z ltac:(lia) ltac:(lia)). lia.
  - assert (n <> 0)%Z as Hn0 by (intros ->; simpl in Hp; lia). lia.
Qed.

Lemma digits2_pos_iter (p q : positive) :
  digits2_pos (Pos.iter xO p q) = (digits2_pos p + q)%positive.
Proof.
  induction q as [|q IH] using Pos.peano_ind.
  - simpl. lia.
  - rewrite Pos.iter_succ. simpl. rewrite IH. lia.
Qed.

(** A mantissa of 53 bits is not rounded. *)
Lemma binary_round_aux_exact (m : positive) (e : Z) :
  Zpos (digits2_pos m) = 53%Z -> (-1074 <= e <= 971)%Z ->
  binary_round_aux 53 1024 false (Zpos m) e loc_Exact = S754_finite false m e.
Proof.
  intros Hd He. unfold binary_round_aux, shr_fexp, fexp, emin. simpl Zdigits2.
  rewrite Hd.
  replace (Z.max (53 + e - 53) (3 - 1024 - 53) - e)%Z with 0%Z by lia.
  simpl. rewrite Hd.
  replace (Z.max (53 + e - 53) (3 - 1024 - 53) - e)%Z with 0%Z by lia.
  simpl. change (1024 - 53)%Z with 971%Z.
  destruct (e <=? 971)%Z eqn:H; [reflexivity|lia].
Qed.

(** The float of the random bits [k]: [0.0], or the bits shifted up to a
    mantissa of 53 bits, with the exponent that makes up for it. *)
Lemma unit_float_bits (k : N) :
  unit_float k
  = match (k mod 2 ^ 53)%N with
    | N0 => S754_zero false
    | Npos p =>
        let d := Zpos (digits2_pos p) in
        S754_finite false (Pos.shiftl p (Z.to_N (53 - d))) (d - 106)
    end.
Proof.
  unfold unit_float.
  pose proof (N.mod_lt k (2 ^ 53) ltac:(discriminate)) as Hlt.
  destruct (k mod 2 ^ 53)%N as [|p]; [reflexivity|].
  assert (Zpos (digits2_pos p) <= 53)%Z as Hd.
  { apply digits2_pos_le; [lia|].
    change (2 ^ 53)%Z with (Z.of_N (2 ^ 53)). lia. }
  cbn [Z.of_N binary_normalize]. unfold binary_round, fexp, emin.
  replace (Z.max (Z.pos (digits2_pos p) + -53 - 53) (3 - 1024 - 53))
    with (Z.pos (digits2_pos p) - 106)%Z by lia.
  unfold shl_align.
  replace (Z.pos (digits2_pos p) - 106 - -53)%Z
    with (Z.pos (digits2_pos p) - 53)%Z by lia.
  destruct (Z.pos (digits2_pos p) - 53)%Z as [|q|q] eqn:Hq; [|lia|].
  - replace (53 - Z.pos (digits2_pos p))%Z with 0%Z by lia.
    replace (Z.pos (digits2_pos p) - 106)%Z with (-53)%Z by lia. simpl.
    rewrite binary_round_aux_exact; [reflexivity|lia|lia].
  - replace (53 - Z.pos (digits2_pos p))%Z with (Zpos q) by lia. simpl.
    rewrite binary_round_aux_exact; [reflexivity| |lia].
    rewrite digits2_pos_iter. lia.
Qed.

(** A draw is [0.0], or a positive float below the exponent of [1.0]. *)
Lemma unit_float_cases (k : N) :
  unit_float k = S754_zero false
  \/ exists m e, unit_float k = S754_finite false m e /\ (e <= -53)%Z.
Proof.
  rewrite unit_float_bits.
  pose proof (N.mod_lt k (2 ^ 53) ltac:(discriminate)) as Hlt.
  destruct (k mod 2 ^ 53)%N as [|p]; [by left|right].
  eexists _, _. split; [reflexivity|].
  assert (Zpos (digits2_pos p) <= 53)%Z; [|lia].
  apply digits2_pos_le; [lia|].
  change (2 ^ 53)%Z with (Z.of_N (2 ^ 53)). lia.
Qed.

(** [0.0 <= random() < 1.0] *)
Lemma unit_float_range (k : N) :
  SFleb float_zero (unit_float k) = true
  /\ SFltb (unit_float k) float_one = true.
Proof.
  destruct (unit_float_cases k) as [->|(m & e & -> & He)]; [by split|].
  split; [reflexivity|].
  unfold SFltb, SFcompare, float_one.
  by destruct (Z.compare_spec e (-52)) as [?|?|?]; try lia.
Qed.

(** Below [1.0], being below [ratio] and being below [min(1.0, ratio)] are
    the same, unless [ratio] is not a number. *)
Lemma SFltb_py_min (k : N) (ratio : float) :
  ratio <> S754_nan ->
  SFltb (unit_float k) (py_min float_one ratio) = SFltb (unit_float k) ratio.
Proof.
  intros Hnan. unfold py_min.
  destruct (SFltb ratio float_one) eqn:Hr; [reflexivity|].
  rewrite (proj2 (unit_float_range k)). symmetry.
  destruct ratio as [sr|[|]| |[|] mr er]; try done.
  - by destruct (unit_float_cases k) as [->|(m & e & -> & He)].
  - destruct (unit_float_cases k) as [->|(m & e & -> & He)]; [done|].
    unfold SFltb, SFcompare, float_one in *.
    destruct (Z.compare_spec er (-52)) as [?|?|?]; try discriminate Hr;
      by destruct (Z.compare_spec e er) as [?|?|?]; try lia.
Qed.

(** [min(1.0, ratio) <= 1.0], unless [ratio] is not a number. *)
Lemma py_min_le_one (ratio : float) :
  SFleb (py_min float_one ratio) float_one = true.
Proof.
  unfold py_min. destruct (SFltb ratio float_one) eqn:Hr; [|reflexivity].
  unfold SFltb, SFleb in *. by destruct (SFcompare ratio float_one) as [[]|].
Qed.

(** What rounding returns has the sign it is given, or is not a number. *)
Lemma binary_round_aux_sign (mx ex : Z) (lx : location) :
  binary_round_aux 53 1024 false mx ex lx = S754_nan
  \/ SFleb float_zero (binary_round_aux 53 1024 false mx ex lx) = true.
Proof.
  unfold binary_round_aux.
  destruct (shr_fexp 53 1024 mx ex lx) as [mrs' e'].
  destruct (shr_fexp 53 1024 _ e' loc_Exact) as [mrs'' e''].
  destruct (shr_m mrs'') as [|m|m]; [by right| |by left].
  destruct (e'' <=? 1024 - 53)%Z; by right.
Qed.

(** The quotient of two positive floats is not negative, unless it is not a
    number. *)
Lemma float_div_positive (a b : float) :
  SFltb float_zero a = true -> SFltb float_zero b = true ->
  float_div a b <> S754_nan ->
  SFleb float_zero (float_div a b) = true.
Proof.
  intros Ha Hb Hnan.
  destruct a as [sa|[|]| |[|] ma ea]; try discriminate Ha;
    destruct b as [sb|[|]| |[|] mb eb]; try discriminate Hb;
    try reflexivity; try (by destruct Hnan).
  unfold float_div, SFdiv in *.
  destruct (SFdiv_core_binary 53 1024 (Z.pos ma) ea (Z.pos mb) eb)
    as [[mz ez] lz].
  by destruct (binary_round_aux_sign mz ez lz) as [Hn|Hs].
Qed.

(** ** Shooting moves *)

Section Shooting.
Context {E : Type} {RT : Runtime E}.

Lemma ForwardShootMover_generates selector :
  generates (ForwardShootMover_generate selector).
Proof.
  intros d e w1 d' w2 H. unfold ForwardShootMover_generate in H.
  apply bind_Ok in H as (sp & w3 & Hsp & H). apply lift_Ok in Hsp as [Hsp ->].
  apply bind_Ok in H as (start & w3 & Hst & H). apply lift_Ok in Hst as [Hst ->].
  apply bind_Ok in H as (partial & w3 & Hgen & H).
  apply call_ext_Ok in Hgen as (_ & Hheap & _ & Hnp & Hdh).
  apply ret_Ok in H as [-> ->]. eauto 6.
Qed.

Lemma BackwardShootMover_generates selector :
  generates (BackwardShootMover_generate selector).
Proof.
  intros d e w1 d' w2 H. unfold BackwardShootMover_generate in H.
  apply bind_Ok in H as (sp & w3 & Hsp & H). apply lift_Ok in Hsp as [Hsp ->].
  apply bind_Ok in H as (start & w3 & Hst & H). apply lift_Ok in Hst as [Hst ->].
  apply bind_Ok in H as (partial & w3 & Hgen & H).
  apply call_ext_Ok in Hgen as (_ & Hheap & _ & Hnp & Hdh).
  apply ret_Ok in H as [-> ->]. eauto 6.
Qed.

(** The outcome of a shooting move that returns: the sample selected, the
    two shooting points, the trial, and how acceptance was decided. *)
Lemma ShootMover_move_Ok generate self selector g (w : world E) v w' :
  generates generate ->
  ShootMover_move generate self selector g w = (Ok v, w') ->
  exists (rep_sample : Sample) (sp fp : ShootingPoint) (trial : Trajectory)
         (d : MoveDetails) (acc : bool),
    rep_sample ∈ legal_sample_set self (default [] (heap w !! g))
                   (self_ensembles self)
    /\ d !! "start" = Some (VTraj (trajectory rep_sample))
    /\ d !! "inputs" = Some (VTrajList [trajectory rep_sample])
    /\ d !! "start_point" = Some (VPoint sp)
    /\ d !! "final_point" = Some (VPoint fp)
    /\ d !! "trial" = Some (VTraj trial)
    /\ d !! "trial_is_in_ensemble"
       = Some (VBool (ensemble_call (ensemble rep_sample) trial))
    /\ d !! "accepted" = Some (VBool acc)
    /\ d !! "result"
       = Some (VTraj (if acc then trial else trajectory rep_sample))
    /\ v = PSample (mkSample (replica rep_sample)
                      (if acc then trial else trajectory rep_sample)
                      (ensemble rep_sample)
                      (Some (length (details_heap w))) None)
    /\ details_heap w' = details_heap w ++ [d]
    /\ heap w' = heap w
    /\ rng_stream (np_random_state w') = rng_stream (np_random_state w)
    /\ (if ensemble_call (ensemble rep_sample) trial then
          (forall s, sum_bias fp <> S754_zero s)
          /\ acc = SFltb
                     (unit_float
                        (rng_stream (np_random_state w)
                           (rng_pos (np_random_state w))))
                     (float_div (sum_bias sp) (sum_bias fp))
          /\ rng_pos (np_random_state w') = S (rng_pos (np_random_state w))
        else
          acc = false
          /\ rng_pos (np_random_state w') = rng_pos (np_random_state w)).
Proof.
  intros Hgen H. unfold ShootMover_move in H.
  apply bind_Ok in H as (gs & w1 & Hgs & H). apply deref_Ok in Hgs as [-> ->].
  apply bind_Ok in H as (rep_sample & w1 & Hsel & H).
  apply select_sample_Ok in Hsel as (Hin & Hheap1 & Hnp1 & _ & Hdh1).
  cbv zeta in H.
  apply bind_Ok in H as (d0 & w2 & Hd0 & H). apply lift_Ok in Hd0 as [_ ->].
  apply bind_Ok in H as (start & w2 & Hst & H). apply lift_Ok in Hst as [Hst ->].
  apply bind_Ok in H as (sp & w2 & Hpick & H).
  apply call_ext_Ok in Hpick as (_ & Hheap2 & _ & Hnp2 & Hdh2).
  apply bind_Ok in H as (d1 & w3 & Hg & H).
  apply Hgen in Hg as (trial & fp & -> & Hheap3 & Hdh3 & Hnp3).
  apply bind_Ok in H as (trial' & w4 & Htr & H). apply lift_Ok in Htr as [Htr ->].
  unfold get_traj in Htr. revert Htr. attrs. simpl. intros [= <-].
  apply bind_Ok in H as (start' & w4 & Hst' & H).
  apply lift_Ok in Hst' as [Hst' ->].
  revert Hst'. attrs. intros [= <-].
  apply bind_Ok in H as (d & w4 & Hd & H).
  apply bind_Ok in H as (result & w5 & Hres & H).
  apply lift_Ok in Hres as [Hres ->].
  apply bind_Ok in H as (l & w5 & Hl & H).
  apply new_details_Ok in Hl as (-> & Hdh5 & Hheap5 & _ & Hnp5 & _).
  apply ret_Ok in H as [-> ->].
  rewrite Hdh5, Hheap5, Hnp5. clear Hdh5 Hheap5 Hnp5.
  exists rep_sample, sp, fp, trial, d.
  destruct (ensemble_call (ensemble rep_sample) trial) eqn:Hens.
  - apply bind_Ok in Hd as (rand & w6 & Hrand & Hd).
    apply np_random_random_Ok in Hrand
      as (-> & Hpos & Hstream & Hheap4 & _ & _ & Hdh4).
    apply bind_Ok in Hd as (sel_prob & w7 & Hsel & Hd).
    apply lift_Ok in Hsel as [Hsel ->].
    apply bind_Ok in Hd as (ratio & w7 & Hratio & Hd).
    apply lift_Ok in Hratio as [Hratio ->].
    unfold selection_probability_ratio, get_point in Hratio.
    revert Hratio. attrs. simpl. unfold py_truediv.
    assert ((exists sz, sum_bias fp = S754_zero sz)
            \/ forall sz, sum_bias fp <> S754_zero sz) as [[sz Hz]|Hz]
      by (destruct (sum_bias fp); (by right) || (left; eauto)).
    { rewrite Hz. discriminate. }
    assert (forall a,
              match sum_bias fp with
              | S754_zero _ => Raise ZeroDivisionError
              | _ => Ok (float_div a (sum_bias fp))
              end = Ok (float_div a (sum_bias fp))) as ->
      by (intros a; destruct (sum_bias fp) as [sz| | |]; try reflexivity;
          by destruct (Hz sz)).
    intros [= <-]. rewrite Hnp3, Hnp2, Hnp1 in *.
    destruct (SFltb _ _) eqn:Hlt.
    + apply bind_Ok in Hd as (trial' & w7 & Htr & Hd).
      apply lift_Ok in Htr as [Htr ->]. revert Htr. attrs. intros [= <-].
      apply ret_Ok in Hd as [-> ->].
      unfold get_traj in Hres. revert Hres. attrs. simpl. intros [= <-].
      exists true. attrs.
      rewrite Hdh4, Hdh3, Hdh2, Hdh1, Hheap4, Hheap3, Hheap2, Hheap1.
      by repeat split.
    + apply ret_Ok in Hd as [-> ->].
      unfold get_traj in Hres. revert Hres. attrs. simpl. intros [= <-].
      exists false. attrs.
      rewrite Hdh4, Hdh3, Hdh2, Hdh1, Hheap4, Hheap3, Hheap2, Hheap1.
      by repeat split.
  - apply ret_Ok in Hd as [-> ->].
    unfold get_traj in Hres. revert Hres. attrs. simpl. intros [= <-].
    exists false. attrs.
    rewrite Hdh3, Hdh2, Hdh1, Hheap3, Hheap2, Hheap1, Hnp3, Hnp2, Hnp1.
    by repeat split.
Qed.

Lemma shoot_mover_move_Ok forward self selector g (w : world E) v w' :
  move (shoot_mover forward self selector) g w = (Ok v, w') ->
  exists generate,
    generates generate
    /\ ShootMover_move generate self selector g w = (Ok v, w').
Proof.
  destruct forward; simpl; intros H.
  - exists (ForwardShootMover_generate selector).
    split; [apply ForwardShootMover_generates|assumption].
  - exists (BackwardShootMover_generate selector).
    split; [apply BackwardShootMover_generates|assumption].
Qed.

(** C1: a shooting move, forward or backward, that returns, returns a sample
    for the replica and the ensemble of the sample it selected. When its
    details say accepted, the sample carries the trial and the trial is in
    that ensemble; when they say rejected, the sample carries the trajectory
    of the selected sample; and a trial that is not in the ensemble is
    rejected. *)
Theorem shooting_move_accept_reject (forward : bool) (self : PathMover)
    (selector : nat) (globalstate : loc) (w : world E) (v : pyval)
    (w' : world E) :
  move (shoot_mover forward self selector) globalstate w = (Ok v, w') ->
  exists (rep_sample s : Sample) (d : MoveDetails) (trial : Trajectory)
         (acc : bool),
    rep_sample ∈ legal_sample_set self (default [] (heap w !! globalstate))
                   (self_ensembles self)
    /\ v = PSample s
    /\ details_of w' s = Some d
    /\ replica s = replica rep_sample
    /\ ensemble s = ensemble rep_sample
    /\ d !! "inputs" = Some (VTrajList [trajectory rep_sample])
    /\ d !! "trial" = Some (VTraj trial)
    /\ d !! "accepted" = Some (VBool acc)
    /\ (acc = true ->
        trajectory s = trial /\ ensemble_call (ensemble s) trial = true)
    /\ (acc = false -> trajectory s = trajectory rep_sample)
    /\ (ensemble_call (ensemble s) trial = false -> acc = false).
Proof.
  intros H. apply shoot_mover_move_Ok in H as (generate & Hgen & H).
  apply (ShootMover_move_Ok _ _ _ _ _ _ _ Hgen) in H
    as (rep_sample & sp & fp & trial & d & acc & Hin & _ & Hinputs & _ & _
        & Htrial & _ & Hacc & _ & -> & Hdh & _ & _ & Hdec).
  eexists rep_sample, _, d, trial, acc.
  split; [exact Hin|]. split; [reflexivity|].
  split; [by eapply details_of_new|].
  do 2 (split; [reflexivity|]).
  do 3 (split; [assumption|]). simpl.
  destruct (ensemble_call (ensemble rep_sample) trial) eqn:Hens.
  - split; [|split].
    + by intros ->.
    + by intros ->.
    + discriminate.
  - destruct Hdec as [-> _]. split; [|split]; [discriminate|done|done].
Qed.

(** C2: when the trial of a shooting move is in the ensemble, the move
    draws one number [rand] from numpy's random source, a float of [0, 1),
    and accepts exactly when [rand < start_point.sum_bias /
    final_point.sum_bias], in floats: the quotient is the rounded one, and
    [<] is the order of the floats. Unless the quotient is not a number, that
    is exactly when [rand] lies in [0, min(1, ratio)), an interval that, for
    positive biases, is within [0, 1]. *)
Theorem shooting_move_acceptance (forward : bool) (self : PathMover)
    (selector : nat) (globalstate : loc) (w : world E) (s : Sample)
    (d : MoveDetails) (w' : world E) :
  move (shoot_mover forward self selector) globalstate w
    = (Ok (PSample s), w') ->
  details_of w' s = Some d ->
  d !! "trial_is_in_ensemble" = Some (VBool true) ->
  exists sp fp : ShootingPoint,
    d !! "start_point" = Some (VPoint sp)
    /\ d !! "final_point" = Some (VPoint fp)
    /\ (forall sz, sum_bias fp <> S754_zero sz)
    /\ rng_pos (np_random_state w') = S (rng_pos (np_random_state w))
    /\ let rand :=
         unit_float
           (rng_stream (np_random_state w) (rng_pos (np_random_state w))) in
       let ratio := float_div (sum_bias sp) (sum_bias fp) in
       d !! "accepted" = Some (VBool (SFltb rand ratio))
       /\ (d !! "accepted" = Some (VBool true) <-> SFltb rand ratio = true)
       /\ SFleb float_zero rand = true
       /\ SFltb rand float_one = true
       /\ (ratio <> S754_nan ->
           (d !! "accepted" = Some (VBool true)
            <-> SFleb float_zero rand = true
                /\ SFltb rand (py_min float_one ratio) = true))
       /\ (SFltb float_zero (sum_bias sp) = true ->
           SFltb float_zero (sum_bias fp) = true ->
           ratio <> S754_nan ->
           SFleb float_zero (py_min float_one ratio) = true
           /\ SFleb (py_min float_one ratio) float_one = true).
Proof.
  intros H Hd Hens. apply shoot_mover_move_Ok in H as (generate & Hgen & H).
  apply (ShootMover_move_Ok _ _ _ _ _ _ _ Hgen) in H
    as (rep_sample & sp & fp & trial & d' & acc & _ & _ & _ & Hsp & Hfp
        & _ & Hin & Hacc & _ & Hv & Hdh & _ & _ & Hdec).
  injection Hv as ->.
  erewrite details_of_new in Hd by (exact Hdh || reflexivity).
  injection Hd as <-.
  rewrite Hin in Hens. injection Hens as Hens. rewrite Hens in Hdec.
  destruct Hdec as (Hz & -> & Hpos).
  exists sp, fp. do 2 (split; [assumption|]).
  split; [assumption|]. split; [assumption|].
  cbv zeta. split; [assumption|].
  set (rand := unit_float _) in *.
  set (ratio := float_div _ _) in *.
  destruct (unit_float_range
              (rng_stream (np_random_state w) (rng_pos (np_random_state w))))
    as [H0 H1]. fold rand in H0, H1.
  split; [|split; [exact H0|split; [exact H1|split]]].
  - rewrite Hacc. split; [by intros [= ->]|by intros ->].
  - intros Hnan. unfold rand. rewrite SFltb_py_min by assumption.
    fold rand. rewrite Hacc. split.
    + by intros [= ->].
    + by intros [_ ->].
  - intros Hsp' Hfp' Hnan. split; [|apply py_min_le_one].
    unfold py_min. destruct (SFltb ratio float_one); [|reflexivity].
    by apply float_div_positive.
Qed.

(** *** A shooting move returns *)

Lemma py_int_floor (x : Q) : (0 <= x)%Q -> py_int x = Qfloor x.
Proof.
  destruct x as [n d]. unfold py_int, Qfloor, Qle. simpl. intros Hn.
  apply Z.quot_div_nonneg; lia.
Qed.

(** [random.choice] on a sequence that is not empty, with a draw in
    [0, 1), returns one of its items. *)
Lemma random_choice_returns {A} (seq : list A) (w : world E) :
  seq <> [] ->
  (0 <= rng_stream (random_state w) (rng_pos (random_state w)))%Q ->
  (rng_stream (random_state w) (rng_pos (random_state w)) < 1)%Q ->
  exists x w1, random_choice seq w = (Ok x, w1).
Proof.
  intros Hne H0 H1. unfold random_choice, mbind, M_bind, random_random, lift.
  simpl. set (u := rng_stream _ _) in *.
  set (n := Z.of_nat (length seq)).
  assert (0 < n)%Z as Hn by (destruct seq; [done|simpl in n; lia]).
  assert (0 <= u * inject_Z n)%Q as Hx.
  { apply Qmult_le_0_compat; [assumption|].
    change 0%Q with (inject_Z 0). rewrite <- Zle_Qle. lia. }
  assert (u * inject_Z n < inject_Z n)%Q as Hxn.
  { rewrite <- (Qmult_1_l (inject_Z n)) at 2.
    apply Qmult_lt_compat_r; [|assumption].
    change 0%Q with (inject_Z 0). rewrite <- Zlt_Qlt. lia. }
  rewrite py_int_floor by assumption.
  assert (0 <= Qfloor (u * inject_Z n) < n)%Z as [Hlo Hhi].
  { split.
    - rewrite <- (Qfloor_Z 0). by apply Qfloor_resp_le.
    - rewrite Zlt_Qlt. eapply Qle_lt_trans; [apply Qfloor_le|assumption]. }
  unfold py_index. fold n.
  destruct (Qfloor (u * inject_Z n) <? 0)%Z eqn:Hneg; [lia|].
  assert ((0 <=? Qfloor (u * inject_Z n))%Z && (Qfloor (u * inject_Z n) <? n)%Z
          = true) as -> by (apply andb_true_iff; lia).
  destruct (seq !! Z.to_nat (Qfloor (u * inject_Z n))) as [x|] eqn:Hl.
  - eauto.
  - apply lookup_ge_None in Hl. lia.
Qed.

Lemma returns_bind {A B} (c : M E A) (k : A -> M E B) w Q P :
  returns c w Q -> (forall a w1, Q a w1 -> returns (k a) w1 P) ->
  returns (c ≫= k) w P.
Proof.
  intros (a & w1 & Hc & HQ) Hk. unfold returns, mbind, M_bind. rewrite Hc.
  by apply Hk.
Qed.

Lemma returns_lift {A} (a : A) (w : world E) :
  returns (lift (Ok a)) w (fun a' w' => a' = a /\ w' = w).
Proof. by exists a, w. Qed.

Lemma returns_ret {A} (a : A) (w : world E) (P : A -> world E -> Prop) :
  P a w -> returns (mret a) w P.
Proof. by exists a, w. Qed.

Lemma returns_deref (g : loc) (w : world E) :
  returns (deref g) w (fun a' w' => a' = default [] (heap w !! g) /\ w' = w).
Proof. by eexists _, w. Qed.

Lemma returns_call_ext {A} (f : E -> A * E) w :
  returns (call_ext f) w (fun _ _ => True).
Proof. unfold returns, call_ext. destruct (f (ext w)). eauto. Qed.

Lemma returns_np_random_random (w : world E) :
  returns np_random_random w (fun _ _ => True).
Proof. unfold returns, np_random_random. simpl. eauto. Qed.

Lemma returns_new_details (d : MoveDetails) (w : world E) :
  returns (new_details d) w (fun _ _ => True).
Proof. unfold returns, new_details. eauto. Qed.

Lemma ForwardShootMover_generate_returns selector d sp start e (w : world E) :
  get_point d "start_point" = Ok sp ->
  get_traj d "start" = Ok start ->
  returns (ForwardShootMover_generate selector d e) w (fun _ _ => True).
Proof.
  intros Hsp Hst. unfold ForwardShootMover_generate. rewrite Hsp, Hst.
  eapply returns_bind; [apply returns_lift|intros ? ? _].
  eapply returns_bind; [apply returns_lift|intros ? ? _].
  eapply returns_bind; [apply returns_call_ext|intros ? ? _].
  by apply returns_ret.
Qed.

Lemma BackwardShootMover_generate_returns selector d sp start e (w : world E) :
  get_point d "start_point" = Ok sp ->
  get_traj d "start" = Ok start ->
  returns (BackwardShootMover_generate selector d e) w (fun _ _ => True).
Proof.
  intros Hsp Hst. unfold BackwardShootMover_generate. rewrite Hsp, Hst.
  eapply returns_bind; [apply returns_lift|intros ? ? _].
  eapply returns_bind; [apply returns_lift|intros ? ? _].
  eapply returns_bind; [apply returns_call_ext|intros ? ? _].
  by apply returns_ret.
Qed.

Lemma py_truediv_Ok (a b : float) :
  (forall sz, b <> S754_zero sz) -> py_truediv a b = Ok (float_div a b).
Proof.
  intros Hz. destruct b as [sz| | |]; try reflexivity. by destruct (Hz sz).
Qed.

Lemma selection_probability_ratio_Ok d sp fp :
  get_point d "start_point" = Ok sp ->
  get_point d "final_point" = Ok fp ->
  (forall sz, sum_bias fp <> S754_zero sz) ->
  selection_probability_ratio d
  = Ok (float_div (sum_bias sp) (sum_bias fp)).
Proof.
  intros Hsp Hfp Hz. unfold selection_probability_ratio.
  rewrite Hsp, Hfp. unfold mbind, res_bind. by apply py_truediv_Ok.
Qed.

(** A shooting move returns a sample as soon as there is a legal sample to
    select, the draw of [random.choice] lies in [0, 1), and no shooting
    point has a zero [sum_bias]. *)
Lemma shooting_move_returns (forward : bool) (self : PathMover)
    (selector : nat) (globalstate : loc) (w : world E) :
  legal_sample_set self (default [] (heap w !! globalstate))
    (self_ensembles self) <> [] ->
  (0 <= rng_stream (random_state w) (rng_pos (random_state w)))%Q ->
  (rng_stream (random_state w) (rng_pos (random_state w)) < 1)%Q ->
  (forall p sz, sum_bias p <> S754_zero sz) ->
  exists s w',
    move (shoot_mover forward self selector) globalstate w
    = (Ok (PSample s), w').
Proof.
  intros Hne H0 H1 Hbias.
  destruct MoveDetails_init_nil as [d0 Hd0].
  set (generate := if forward then ForwardShootMover_generate selector
                   else BackwardShootMover_generate selector).
  assert (move (shoot_mover forward self selector) globalstate w
          = ShootMover_move generate self selector globalstate w) as ->
    by (by destruct forward).
  assert (forall d e w0 sp start,
            get_point d "start_point" = Ok sp ->
            get_traj d "start" = Ok start ->
            returns (generate d e) w0
              (fun d' _ => exists trial fp,
                 d' = setattr (setattr d "trial" (VTraj trial))
                        "final_point" (VPoint fp))) as Hgen.
  { intros d e w0 sp start Hsp Hst.
    assert (returns (generate d e) w0 (fun _ _ => True))
      as (d' & w1 & Hg & _).
    { destruct forward;
        [by eapply ForwardShootMover_generate_returns
        |by eapply BackwardShootMover_generate_returns]. }
    exists d', w1. split; [assumption|].
    assert (generates generate) as Hgs.
    { destruct forward; [apply ForwardShootMover_generates
                        |apply BackwardShootMover_generates]. }
    apply Hgs in Hg as (trial & fp & -> & _). eauto. }
  cut (returns (ShootMover_move generate self selector globalstate) w
         (fun v _ => exists s, v = PSample s)).
  { intros (v & w' & Hv & s & ->). eauto. }
  unfold ShootMover_move.
  eapply returns_bind; [apply returns_deref|intros gs w1 [-> ->]].
  eapply returns_bind.
  { destruct (random_choice_returns _ w Hne H0 H1) as (x & w1 & Hx).
    exists x, w1. split; [exact Hx|exact I]. }
  intros rep_sample w1 _. cbv zeta. rewrite Hd0.
  eapply returns_bind; [apply returns_lift|intros ? w2 [-> _]]. attrs.
  eapply returns_bind; [apply returns_lift|intros ? w3 [-> _]].
  eapply returns_bind; [apply returns_call_ext|intros sp w4 _].
  eapply returns_bind; [eapply Hgen; by attrs|].
  intros ? w5 (trial & fp & ->). attrs.
  eapply returns_bind; [apply returns_lift|intros ? w6 [-> _]]. attrs.
  eapply returns_bind; [apply returns_lift|intros ? w7 [-> _]].
  eapply returns_bind with
    (Q := fun d _ => exists t, get_traj d "result" = Ok t).
  - destruct (ensemble_call (ensemble rep_sample) trial).
    + eapply returns_bind; [apply returns_np_random_random|intros rand w8 _].
      rewrite !(selection_probability_ratio_Ok _ sp fp)
        by (by attrs || apply Hbias).
      eapply returns_bind; [apply returns_lift|intros ? w9 [-> _]].
      eapply returns_bind; [apply returns_lift|intros ? w10 [-> _]].
      destruct (SFltb _ _).
      * attrs.
        eapply returns_bind; [apply returns_lift|intros ? w11 [-> _]].
        apply returns_ret. attrs. eauto.
      * apply returns_ret. attrs. eauto.
    + apply returns_ret. attrs. eauto.
  - intros d w8 [t Ht]. rewrite Ht.
    eapply returns_bind; [apply returns_lift|intros ? w9 [-> _]].
    eapply returns_bind; [apply returns_new_details|intros l w10 _].
    apply returns_ret. eauto.
Qed.

End Shooting.

Lemma shooting_move_accept_reject_witness :
  let w := Fixture.world_of [Fixture.sample0] (1 # 2) in
  exists v w',
    move (RT := Fixture.source_runtime)
      (shoot_mover true (Fixture.all_movers 7) 5) 0 w = (Ok v, w')
    /\ exists (rep_sample s : Sample) (d : MoveDetails) (trial : Trajectory)
              (acc : bool),
         rep_sample ∈ legal_sample_set (Fixture.all_movers 7)
                        (default [] (heap w !! 0))
                        (self_ensembles (Fixture.all_movers 7))
         /\ v = PSample s
         /\ details_of w' s = Some d
         /\ replica s = replica rep_sample
         /\ ensemble s = ensemble rep_sample
         /\ d !! "inputs" = Some (VTrajList [trajectory rep_sample])
         /\ d !! "trial" = Some (VTraj trial)
         /\ d !! "accepted" = Some (VBool acc)
         /\ (acc = true ->
             trajectory s = trial
             /\ ensemble_call (Runtime := Fixture.source_runtime)
                  (ensemble s) trial = true)
         /\ (acc = false -> trajectory s = trajectory rep_sample)
         /\ (ensemble_call (Runtime := Fixture.source_runtime)
               (ensemble s) trial = false -> acc = false).
Proof.
  intros w.
  pose (r := move (RT := Fixture.source_runtime)
               (shoot_mover true (Fixture.all_movers 7) 5) 0 w).
  exists (Fixture.value_of r), r.2.
  split; [reflexivity|].
  apply (shooting_move_accept_reject (RT := Fixture.source_runtime) true
           (Fixture.all_movers 7) 5 0 w (Fixture.value_of r) r.2).
  reflexivity.
Defined.

Lemma shooting_move_acceptance_witness :
  let w := Fixture.world_of [Fixture.sample0] (1 # 2) in
  exists s d w',
    move (RT := Fixture.source_runtime)
      (shoot_mover false (Fixture.all_movers 7) 5) 0 w = (Ok (PSample s), w')
    /\ details_of w' s = Some d
    /\ exists sp fp : ShootingPoint,
         d !! "start_point" = Some (VPoint sp)
         /\ d !! "final_point" = Some (VPoint fp)
         /\ (forall sz,
               sum_bias (Runtime := Fixture.source_runtime) fp
               <> S754_zero sz)
         /\ rng_pos (np_random_state w') = S (rng_pos (np_random_state w))
         /\ let rand :=
              unit_float
                (rng_stream (np_random_state w)
                   (rng_pos (np_random_state w))) in
            let ratio :=
              float_div (sum_bias (Runtime := Fixture.source_runtime) sp)
                (sum_bias (Runtime := Fixture.source_runtime) fp) in
            d !! "accepted" = Some (VBool (SFltb rand ratio))
            /\ (d !! "accepted" = Some (VBool true)
                <-> SFltb rand ratio = true)
            /\ SFleb float_zero rand = true
            /\ SFltb rand float_one = true
            /\ (ratio <> S754_nan ->
                (d !! "accepted" = Some (VBool true)
                 <-> SFleb float_zero rand = true
                     /\ SFltb rand (py_min float_one ratio) = true))
            /\ (SFltb float_zero
                  (sum_bias (Runtime := Fixture.source_runtime) sp) = true ->
                SFltb float_zero
                  (sum_bias (Runtime := Fixture.source_runtime) fp) = true ->
                ratio <> S754_nan ->
                SFleb float_zero (py_min float_one ratio) = true
                /\ SFleb (py_min float_one ratio) float_one = true).
Proof.
  intros w.
  pose (r := move (RT := Fixture.source_runtime)
               (shoot_mover false (Fixture.all_movers 7) 5) 0 w).
  exists (Fixture.sample_of r),
    (default ∅ (details_of r.2 (Fixture.sample_of r))), r.2.
  split; [reflexivity|].
  split; [reflexivity|].
  apply (shooting_move_acceptance (RT := Fixture.source_runtime) false
           (Fixture.all_movers 7) 5 0 w (Fixture.sample_of r)
           (default ∅ (details_of r.2 (Fixture.sample_of r))) r.2).
  - reflexivity.
  - reflexivity.
  - reflexivity.
Defined.

(** The quotient of the acceptance test is the rounded one. With the biases
    2.0 and 3.0, the draw 6004799503160661 / 2**53 is below 2/3 as a number,
    and it is the float [2.0 / 3.0] itself: [rand < ratio] is false, and the
    move rejects. *)
Example acceptance_at_rounded_ratio :
  py_truediv (float_of_Z 2) (float_of_Z 3) = Ok (unit_float 6004799503160661)
  /\ SFltb (unit_float 6004799503160661)
       (float_div (float_of_Z 2) (float_of_Z 3)) = false
  /\ (6004799503160661 * 3 < 2 * 2 ^ 53)%Z.
Proof. split; [reflexivity|]. split; [reflexivity|]. reflexivity. Qed.

(** ** The mixed mover *)

(** The countdown of [pick_index] does not matter: from [len(weights)]
    rounds on, the loop has ended by its own test. *)
Lemma pick_index_steps (weights : list float) (rand : float)
    (steps steps' : nat) :
  forall (idx : nat) (prob : float),
    length weights <= steps + idx ->
    length weights <= steps' + idx ->
    pick_index weights rand steps idx prob
    = pick_index weights rand steps' idx prob.
Proof.
  revert steps'. induction steps as [|steps IH]; intros steps' idx prob H H'.
  - destruct steps'; simpl;
      destruct (SFleb prob rand); simpl; try reflexivity;
      destruct (idx <? length weights) eqn:Hlt; try reflexivity;
      apply Nat.ltb_lt in Hlt; lia.
  - destruct steps' as [|steps']; simpl;
      destruct (SFleb prob rand); simpl; try reflexivity;
      destruct (idx <? length weights) eqn:Hlt; try reflexivity;
      apply Nat.ltb_lt in Hlt; try lia.
    destruct (weights !! S idx); [|reflexivity].
    apply IH; lia.
Qed.

(** ** The sequential movers *)

Section Sequential.
Context {E : Type} {RT : Runtime E}.

(** [mysamples.extend(sample)] fails on the first sample there is: the inner
    loop of the partial-acceptance mover gets through an empty list only. *)
Lemma partial_inner_loop_cons (sample : Sample)
    (rest mysamples : list Sample) (w : world E) :
  partial_inner_loop (sample :: rest) mysamples w = (Raise TypeError, w).
Proof. reflexivity. Qed.

(** Without the misspelt name in the namespace, the constructor raises. *)
Lemma PartialAcceptanceSequentialMover_init_raises self (movers : list (mover E)) :
  "PartialAccpetanceSequentialMover" ∉ module_globals ->
  PartialAcceptanceSequentialMover_init self movers = Raise NameError.
Proof.
  intros Hnot. unfold PartialAcceptanceSequentialMover_init, lookup_global.
  by rewrite bool_decide_eq_false_2.
Qed.

(** Without [SampleSet] in the namespace, both sequential movers raise
    before any sub-mover runs. *)
Lemma sequential_move_unbound self (movers : list (mover E)) g (w : world E) :
  "SampleSet" ∉ module_globals ->
  move (IndependentSequentialMover self movers) g w = (Raise NameError, w)
  /\ move (PartialAcceptanceSequentialMover self movers) g w
     = (Raise NameError, w).
Proof.
  intros Hnot. simpl.
  unfold IndependentSequentialMover_move, PartialAcceptanceSequentialMover_move,
    new_SampleSet, lookup_global.
  rewrite bool_decide_eq_false_2 by assumption. by split.
Qed.

(** As soon as a sub-mover hands the partial-acceptance loop a sample, the
    loop raises, whatever the sample's details say. *)
Lemma partial_loop_first_sample (mv : mover E -> loc -> M E pyval)
    subglobal m rest mysamples (w : world E) s l w1 :
  mv m subglobal w = (Ok (PList (s :: l)), w1) ->
  partial_loop mv subglobal (m :: rest) mysamples w = (Raise TypeError, w1).
Proof.
  intros Hm. simpl. unfold mbind at 1, M_bind at 1. by rewrite Hm.
Qed.

(** The independent loop runs a sub-mover, applies what it returned, and
    runs it again for the samples it keeps. *)
Lemma independent_loop_single (mv : mover E -> loc -> M E pyval)
    subglobal m (w : world E) l1 w1 l2 w2 :
  mv m subglobal w = (Ok (PList l1), w1) ->
  mv m subglobal
    (mkWorld (alter (fun ss => apply_samples ss l1) subglobal (heap w1))
       (details_heap w1) (random_state w1) (np_random_state w1) (ext w1))
  = (Ok (PList l2), w2) ->
  independent_loop mv subglobal [m] [] w = (Ok (PList l2), w2).
Proof.
  intros H1 H2. simpl. unfold mbind at 1, M_bind at 1. rewrite H1.
  unfold SampleSet_apply_samples, mbind, M_bind, lift, update. simpl.
  by rewrite H2.
Qed.

(** The movers that end in [return path] return one sample, never a list. *)
Lemma move_returns_its_sample (m : mover E) g (w : world E) v w' :
  returns_its_sample m ->
  move m g w = (Ok v, w') ->
  (exists s, v = PSample s) /\ ~ is_sample_list v.
Proof.
  intros Hm H.
  cut (exists s, v = PSample s).
  { intros [s ->]. split; [eauto|]. by intros [l Hl]. }
  destruct m; simpl in Hm; try done; simpl in H.
  - unfold ShootMover_move in H.
    repeat (apply bind_Ok in H as (? & ? & _ & H); cbv zeta in H).
    apply ret_Ok in H as [-> _]. eauto.
  - unfold ShootMover_move in H.
    repeat (apply bind_Ok in H as (? & ? & _ & H); cbv zeta in H).
    apply ret_Ok in H as [-> _]. eauto.
  - unfold MixedMover_move in H.
    repeat (apply bind_Ok in H as (? & ? & _ & H); cbv zeta in H).
    apply ret_Ok in H as [-> _]. eauto.
  - unfold EnsembleHopMover_move in H.
    repeat (apply bind_Ok in H as (? & ? & _ & H); cbv zeta in H).
    apply ret_Ok in H as [-> _]. eauto.
  - unfold PathReversalMover_move in H.
    repeat (apply bind_Ok in H as (? & ? & _ & H); cbv zeta in H).
    apply ret_Ok in H as [-> _]. eauto.
Qed.

End Sequential.

(** C4, on the code: [PartialAcceptanceSequentialMover([A, B, C])] cannot be
    constructed, the class name given to [super] being unbound; and on an
    instance with these sub-movers, where [A]'s sample is accepted and [B]'s
    rejected, [move] raises: [NameError] in the module as written, before
    any sub-mover runs, and, with [SampleSet] bound, [TypeError] at
    [mysamples.extend(sample)] on [A]'s sample, after [A] alone has run. No
    list of samples is returned. *)
Theorem PartialAcceptanceSequentialMover_raises :
  let self := Fixture.all_movers 7 in
  let movers := [Fixture.A; Fixture.B; Fixture.C] in
  let w := Fixture.world_of [Fixture.sample0] (1 # 2) in
  PartialAcceptanceSequentialMover_init (RT := Fixture.source_runtime)
    self movers = Raise NameError
  /\ PartialAcceptanceSequentialMover_init (RT := Fixture.bound_runtime)
       self movers = Raise NameError
  /\ move (RT := Fixture.source_runtime)
       (PartialAcceptanceSequentialMover self movers) 0 w
     = (Raise NameError, w)
  /\ (move (RT := Fixture.bound_runtime)
        (PartialAcceptanceSequentialMover self movers) 0 w).1
     = Raise TypeError
  /\ ext (move (RT := Fixture.bound_runtime)
            (PartialAcceptanceSequentialMover self movers) 0 w).2
     = [1].
Proof. repeat split. Qed.

(** C5, on the code: [IndependentSequentialMover([m]).move] raises
    [NameError] in the module as written; with [SampleSet] bound it calls
    [m.move] twice, applies the samples of the first call to its sample set
    and returns the samples of the second call. Here [m] numbers its calls:
    the sample applied is that of call 0, the sample returned that of
    call 1. *)
Theorem IndependentSequentialMover_moves_twice :
  let self := Fixture.all_movers 7 in
  let m := Fixture.counting_stub 1 in
  let w := Fixture.world_of [Fixture.sample0] (1 # 2) in
  let r := move (RT := Fixture.bound_runtime)
             (IndependentSequentialMover self [m]) 0 w in
  move (RT := Fixture.source_runtime)
    (IndependentSequentialMover self [m]) 0 w = (Raise NameError, w)
  /\ ext r.2 = [1; 1]
  /\ map trajectory <$> heap r.2 !! 1 = Some [[0%Z]]
  /\ exists s, r.1 = Ok (PList [s]) /\ trajectory s = [1%Z].
Proof.
  repeat split. eexists. split; reflexivity.
Qed.

(** C7, on the code: [PathReversalMover.move] on a state with one legal
    sample returns that one [Sample], not a list of samples. *)
Theorem PathReversalMover_move_not_a_list :
  let w := Fixture.world_of [Fixture.sample0] (1 # 2) in
  let r := move (RT := Fixture.source_runtime)
             (PathReversalMover (Fixture.all_movers 7)) 0 w in
  (exists s, r.1 = Ok (PSample s) /\ trajectory s = [11; 10; 9; 8]%Z)
  /\ ~ is_sample_list (Fixture.value_of r).
Proof.
  split.
  - eexists. split; reflexivity.
  - intros [l Hl]. vm_compute in Hl. discriminate Hl.
Qed.

(** * Further properties of the module *)

(** ** [make_list_of_pairs]: what it returns and how it fails *)

Lemma every_other_cons (x : pyobj) (l : list pyobj) :
  every_other (x :: l) = x :: every_other (drop 1 l).
Proof. by destruct l. Qed.

Lemma every_other_zip (n : nat) :
  forall l : list pyobj,
    length l = 2 * n ->
    flat_map (fun ab => [ab.1; ab.2])
      (zip (every_other l) (every_other (drop 1 l))) = l
    /\ length (zip (every_other l) (every_other (drop 1 l))) = n.
Proof.
  induction n as [|n IH]; intros l Hlen.
  - destruct l; [by split|discriminate Hlen].
  - destruct l as [|a [|b l]]; simpl in Hlen; try lia.
    destruct (IH l ltac:(lia)) as [Hflat Hn].
    rewrite every_other_cons.
    change (drop 1 (a :: b :: l)) with (b :: l).
    rewrite every_other_cons.
    change (drop 1 (b :: l)) with l. simpl.
    split; [by rewrite Hflat|by rewrite Hn].
Qed.

Lemma assert_pairs_Ok (elems : list pyobj) :
  assert_pairs elems = Ok tt <-> Forall (fun e => py_len e = Ok 2) elems.
Proof.
  induction elems as [|e elems IH]; simpl.
  - split; [constructor|done].
  - destruct (py_len e) as [n|x] eqn:Hn; simpl.
    + destruct (n =? 2) eqn:H2; simpl.
      * apply Nat.eqb_eq in H2 as ->. rewrite IH. split.
        -- by constructor.
        -- intros HF. by apply Forall_cons in HF as [_ HF].
      * split; [done|]. intros HF. apply Forall_cons in HF as [Hx _].
        rewrite Hn in Hx. injection Hx as ->. discriminate H2.
    + split; [done|]. intros HF. apply Forall_cons in HF as [Hx _].
      rewrite Hn in Hx. discriminate Hx.
Qed.

Lemma assert_pairs_res (elems : list pyobj) :
  assert_pairs elems = Ok tt
  \/ assert_pairs elems = Raise AssertionError
  \/ assert_pairs elems = Raise TypeError.
Proof.
  induction elems as [|e elems IH]; simpl; [by left|].
  destruct e; simpl; auto;
    match goal with |- context [?n =? 2] => destruct (n =? 2) end;
    simpl; auto.
Qed.

Lemma py_len_res (o : pyobj) :
  (exists n, py_len o = Ok n) \/ py_len o = Raise TypeError.
Proof. destruct o; simpl; eauto. Qed.

(** The two ways [make_list_of_pairs] returns on an input that is not
    [None]: the input itself, a sequence that is not empty and whose items
    all have length 2; or the pairs made of a flat list or tuple of even
    length. *)
Lemma make_list_of_pairs_Ok (l r : pyobj) :
  l <> ONone ->
  make_list_of_pairs l = Ok r ->
  (r = l
   /\ exists e elems, py_iter l = Ok (e :: elems)
        /\ Forall (fun e => py_len e = Ok 2) (e :: elems))
  \/ (exists a items pairs,
        (l = OList (a :: items) \/ l = OTuple (a :: items))
        /\ py_len a = Raise TypeError
        /\ r = OList (map (fun ab => OList [ab.1; ab.2]) pairs)
        /\ flat_map (fun ab => [ab.1; ab.2]) pairs = a :: items
        /\ 2 * length pairs = length (a :: items)).
Proof.
  intros Hnone H.
  assert (exists n seq, py_len l = Ok n /\ py_iter l = Ok seq
            /\ length seq = n /\ py_getitem l 0 = py_index seq 0
            /\ (py_slice_step2 l 0 = Ok (every_other seq))
            /\ (py_slice_step2 l 1 = Ok (every_other (drop 1 seq)))
            /\ ((exists s, l = OStr s /\ forall e, e ∈ seq -> py_len e = Ok 1)
                \/ l = OList seq \/ l = OTuple seq))
    as (n & seq & Hlen & Hiter & Hseq & Hget & Hev & Hod & Hkind).
  { destruct l; try done; try discriminate H.
    - exists (String.length s), (str_chars s). repeat split; try done.
      + unfold str_chars. rewrite length_map. clear.
        induction s; simpl; [done|by f_equal].
      + left. exists s. split; [done|]. intros e He. unfold str_chars in He.
        apply list_elem_of_fmap in He as (c & -> & _). done.
    - exists (length l), l. repeat split; auto.
    - exists (length l), l. repeat split; auto. }
  assert (make_list_of_pairs l
          = (len_l ← py_len l;
             list_of_lists ←
               match (l0 ← py_getitem l 0; py_len l0) with
               | Ok _ => Ok true
               | Raise TypeError => Ok false
               | Raise e => Raise e
               end;
             if list_of_lists : bool then
               elems ← py_iter l; _ ← assert_pairs elems; Ok l
             else
               n ← py_len l;
               _ ← py_assert (n mod 2 =? 0);
               evens ← py_slice_step2 l 0;
               odds ← py_slice_step2 l 1;
               Ok (OList (map (fun ab => OList [ab.1; ab.2])
                            (zip evens odds))))) as Hdef
    by (by destruct l).
  rewrite Hdef in H. clear Hdef.
  rewrite Hlen, Hget, Hiter, Hev, Hod in H.
  destruct seq as [|a items].
  { rewrite py_index_nil in H. discriminate H. }
  rewrite py_index_0 in H. unfold mbind, res_bind in H.
  destruct (py_len_res a) as [[k Hk]|Hk]; rewrite Hk in H.
  - destruct (assert_pairs_res (a :: items)) as [Ha|[Ha|Ha]];
      rewrite Ha in H; try discriminate H.
    left. split; [congruence|].
    exists a, items. split; [done|]. by apply assert_pairs_Ok.
  - destruct (n mod 2 =? 0) eqn:Heven; unfold py_assert in H;
      [|discriminate H].
    right.
    apply Nat.eqb_eq in Heven. apply Nat.Div0.mod_divides in Heven as [m Hm].
    destruct (every_other_zip m (a :: items) ltac:(lia)) as [Hflat Hn].
    exists a, items, (zip (every_other (a :: items))
                        (every_other (drop 1 (a :: items)))).
    split.
    { destruct Hkind as [(s & -> & Hone)|Hkind]; [|done].
      rewrite Hone in Hk by apply list_elem_of_here. discriminate Hk. }
    split; [done|]. split; [congruence|]. split; [done|]. lia.
Qed.

(** X1: whenever [make_list_of_pairs] returns on an input other than
    [None], what it returns is a sequence that is not empty and whose items
    all have length 2. *)
Theorem make_list_of_pairs_returns_pairs (l r : pyobj) :
  l <> ONone ->
  make_list_of_pairs l = Ok r ->
  exists e elems,
    py_iter r = Ok (e :: elems)
    /\ Forall (fun e => py_len e = Ok 2) (e :: elems).
Proof.
  intros Hnone H.
  destruct (make_list_of_pairs_Ok l r Hnone H)
    as [[-> H']|(a & items & pairs & _ & _ & -> & Hflat & Hlen)];
    [exact H'|].
  destruct pairs as [|[x y] pairs]; [discriminate Hflat|].
  exists (OList [x; y]), (map (fun ab => OList [ab.1; ab.2]) pairs).
  split; [reflexivity|]. constructor; [reflexivity|].
  apply Forall_fmap. by apply Forall_true.
Qed.

Lemma make_list_of_pairs_returns_pairs_witness :
  exists e elems,
    py_iter (OList [OList [OObj 1; OObj 2]; OList [OObj 3; OObj 4]])
    = Ok (e :: elems)
    /\ Forall (fun e => py_len e = Ok 2) (e :: elems).
Proof.
  apply (make_list_of_pairs_returns_pairs
           (OTuple [OObj 1; OObj 2; OObj 3; OObj 4])).
  - discriminate.
  - reflexivity.
Defined.

(** X2: a flat list or tuple of even length, its first item without a
    length, is cut into pairs in order: the pairs returned, put end to end,
    are the input again, and there are half as many as items. *)
Theorem make_list_of_pairs_flat_round_trip (a : pyobj) (items : list pyobj)
    (l : pyobj) :
  l = OList (a :: items) \/ l = OTuple (a :: items) ->
  py_len a = Raise TypeError ->
  Nat.Even (length (a :: items)) ->
  exists pairs : list (pyobj * pyobj),
    make_list_of_pairs l = Ok (OList (map (fun ab => OList [ab.1; ab.2]) pairs))
    /\ flat_map (fun ab => [ab.1; ab.2]) pairs = a :: items
    /\ 2 * length pairs = length (a :: items).
Proof.
  intros Hl Ha [m Hm].
  destruct (every_other_zip m (a :: items) Hm) as [Hflat Hn].
  exists (zip (every_other (a :: items)) (every_other (drop 1 (a :: items)))).
  split; [|split; [done|lia]].
  assert ((length (a :: items) mod 2 =? 0) = true) as Heven.
  { apply Nat.eqb_eq. rewrite Hm. rewrite Nat.mul_comm.
    apply Nat.Div0.mod_mul. }
  destruct Hl as [-> | ->]; unfold make_list_of_pairs;
    cbn [py_len py_getitem py_slice_step2]; rewrite py_index_0;
    unfold mbind, res_bind; rewrite Ha, Heven; reflexivity.
Qed.

Lemma make_list_of_pairs_flat_round_trip_witness :
  exists pairs : list (pyobj * pyobj),
    make_list_of_pairs (OTuple [OObj 1; OInt 2; OStr "c"; ONone])
    = Ok (OList (map (fun ab => OList [ab.1; ab.2]) pairs))
    /\ flat_map (fun ab => [ab.1; ab.2]) pairs
       = [OObj 1; OInt 2; OStr "c"; ONone]
    /\ 2 * length pairs = length [OObj 1; OInt 2; OStr "c"; ONone].
Proof.
  apply (make_list_of_pairs_flat_round_trip (OObj 1)
           [OInt 2; OStr "c"; ONone]).
  - by right.
  - reflexivity.
  - by exists 2.
Defined.

(** X3: [make_list_of_pairs] is idempotent: what it returns, it returns
    unchanged when it is given it again. *)
Theorem make_list_of_pairs_idempotent (l r : pyobj) :
  make_list_of_pairs l = Ok r ->
  make_list_of_pairs r = Ok r.
Proof.
  intros H.
  assert (l = ONone \/ l <> ONone) as [->|Hnone]
    by (destruct l; (by left) || (by right)).
  { by injection H as <-. }
  destruct (make_list_of_pairs_Ok l r Hnone H)
    as [[-> _]|(a & items & pairs & _ & _ & -> & Hflat & Hlen)];
    [exact H|].
  destruct pairs as [|[x y] pairs]; [discriminate Hflat|].
  unfold make_list_of_pairs.
  cbn [py_len py_getitem py_iter map]. rewrite py_index_0.
  unfold mbind, res_bind. cbn [py_len length fst snd].
  assert (assert_pairs
            (OList [x; y] :: map (fun ab => OList [ab.1; ab.2]) pairs)
          = Ok tt) as ->; [|reflexivity].
  apply assert_pairs_Ok. constructor; [reflexivity|].
  apply Forall_fmap. by apply Forall_true.
Qed.

Lemma make_list_of_pairs_idempotent_witness :
  make_list_of_pairs (OList [OList [OObj 1; OObj 2]; OList [OObj 3; OObj 4]])
  = Ok (OList [OList [OObj 1; OObj 2]; OList [OObj 3; OObj 4]]).
Proof.
  apply (make_list_of_pairs_idempotent
           (OList [OObj 1; OObj 2; OObj 3; OObj 4])).
  reflexivity.
Defined.

(** X4: how [make_list_of_pairs] fails. An input without a length, other
    than [None], raises [TypeError]; an empty list, tuple or string raises
    the [IndexError] of [l[0]]; a sequence whose items all have a length, not
    all of them 2, fails the assertion; and so does a flat list of odd
    length. *)
Theorem make_list_of_pairs_errors :
  (forall l, l <> ONone -> py_len l = Raise TypeError ->
     make_list_of_pairs l = Raise TypeError)
  /\ (forall l, py_len l = Ok 0 -> make_list_of_pairs l = Raise IndexError)
  /\ (forall l elems,
        l = OList elems \/ l = OTuple elems ->
        Forall (fun e => exists n, py_len e = Ok n) elems ->
        Exists (fun e => py_len e <> Ok 2) elems ->
        make_list_of_pairs l = Raise AssertionError)
  /\ (forall a items,
        py_len a = Raise TypeError -> Nat.Odd (length (a :: items)) ->
        make_list_of_pairs (OList (a :: items)) = Raise AssertionError).
Proof.
  split; [|split; [|split]].
  - intros l Hnone Hl. destruct l; try done; discriminate Hl.
  - intros l Hl. destruct l; try discriminate Hl; simpl in Hl.
    + destruct s; [reflexivity|discriminate Hl].
    + destruct l; [reflexivity|discriminate Hl].
    + destruct l; [reflexivity|discriminate Hl].
  - intros l elems Hl Hsized Hex.
    assert (assert_pairs elems = Raise AssertionError) as Hassert.
    { clear Hl. induction Hsized as [|e elems [n Hn] Hsized IH].
      - inversion Hex.
      - simpl. rewrite Hn. simpl. destruct (n =? 2) eqn:H2; [|reflexivity].
        simpl. apply IH. apply Exists_cons in Hex as [Hbad|Hex]; [|done].
        apply Nat.eqb_eq in H2 as ->. by destruct Hbad. }
    destruct elems as [|e elems]; [inversion Hex|].
    apply Forall_cons in Hsized as [[n Hn] _].
    destruct Hl as [-> | ->]; unfold make_list_of_pairs;
      cbn [py_len py_getitem py_iter]; rewrite py_index_0;
      unfold mbind, res_bind; rewrite Hn, Hassert; reflexivity.
  - intros a items. apply make_list_of_pairs_odd.
Qed.

Lemma make_list_of_pairs_errors_witness :
  make_list_of_pairs (OInt 3) = Raise TypeError
  /\ make_list_of_pairs (OTuple []) = Raise IndexError
  /\ make_list_of_pairs (OList [OList [OObj 1; OObj 2]; OList [OObj 3]])
     = Raise AssertionError
  /\ make_list_of_pairs (OList [OObj 1; OObj 2; OObj 3]) = Raise AssertionError.
Proof.
  destruct make_list_of_pairs_errors as (Htype & Hindex & Hinner & Hodd).
  split; [|split; [|split]].
  - apply Htype; [discriminate|reflexivity].
  - apply Hindex. reflexivity.
  - apply (Hinner _ [OList [OObj 1; OObj 2]; OList [OObj 3]]).
    + by left.
    + repeat constructor; eexists; reflexivity.
    + apply Exists_cons_tl, Exists_cons_hd. discriminate.
  - apply Hodd; [reflexivity|]. by exists 1.
Defined.

(** ** [legal_sample_set] and [select_sample] *)

Lemma elem_of_flat_map {A B} (f : A -> list B) (l : list A) (y : B) :
  y ∈ flat_map f l <-> exists x, x ∈ l /\ y ∈ f x.
Proof.
  rewrite list_elem_of_In, in_flat_map. split.
  - intros (x & Hx & Hy). exists x. by rewrite !list_elem_of_In.
  - intros (x & Hx & Hy). exists x. by rewrite <- !list_elem_of_In.
Qed.

Lemma elem_of_rep_samples (self : PathMover) (gs : SampleSet) (s : Sample) :
  s ∈ flat_map (all_from_replica gs)
        match replicas self with
        | AllReplicas => replica_list gs
        | Replicas l => map Some l
        end
  <-> s ∈ gs /\ replica_allowed self s.
Proof.
  rewrite elem_of_flat_map. unfold replica_allowed, all_from_replica.
  destruct (replicas self) as [|l].
  - split.
    + intros (rep & _ & Hs). apply list_elem_of_filter in Hs as [_ Hs].
      by split.
    + intros [Hs _]. exists (replica s). split.
      * unfold replica_list. apply elem_of_remove_dups.
        apply list_elem_of_fmap. by exists s.
      * by apply list_elem_of_filter.
  - split.
    + intros (rep & Hrep & Hs). apply list_elem_of_filter in Hs as [Heq Hs].
      apply list_elem_of_fmap in Hrep as (z & -> & Hz).
      split; [assumption|]. by exists z.
    + intros [Hs (z & Hz & Heq)]. exists (Some z). split.
      * apply list_elem_of_fmap. by exists z.
      * by apply list_elem_of_filter.
Qed.

Lemma elem_of_ens_samples (gs : SampleSet) (l : list ens) (s : Sample) :
  s ∈ flat_map (all_from_ensemble gs) l <-> s ∈ gs /\ ensemble s ∈ l.
Proof.
  rewrite elem_of_flat_map. unfold all_from_ensemble. split.
  - intros (e & He & Hs). apply list_elem_of_filter in Hs as [<- Hs].
    by split.
  - intros [Hs He]. exists (ensemble s). split; [assumption|].
    by apply list_elem_of_filter.
Qed.

Lemma legal_sample_set_sound (self : PathMover) (globalstate : SampleSet)
    (arg : ensembles_arg) (s : Sample) :
  s ∈ legal_sample_set self globalstate arg ->
  s ∈ globalstate
  /\ replica_allowed self s
  /\ ensemble_allowed self arg s.
Proof.
  unfold legal_sample_set, ensemble_allowed, set_intersection, self_ensembles.
  destruct arg as [| |e|l]; [destruct (ensembles self)| | |].
  all: rewrite ?elem_of_remove_dups, ?list_elem_of_intersection,
         ?elem_of_ens_samples, ?elem_of_rep_samples.
  all: rewrite ?list_elem_of_singleton.
  all: tauto.
Qed.

(** X5: the legal samples of a mover are exactly the samples of the global
    state whose replica [self.replicas] admits and whose ensemble the
    [ensembles] argument admits ([None] standing for [self.ensembles], and
    ['all'] or a missing restriction admitting everything). *)
Theorem legal_sample_set_elem (self : PathMover) (globalstate : SampleSet)
    (arg : ensembles_arg) (s : Sample) :
  s ∈ legal_sample_set self globalstate arg
  <-> s ∈ globalstate
      /\ replica_allowed self s
      /\ ensemble_allowed self arg s.
Proof.
  split; [apply legal_sample_set_sound|].
  unfold legal_sample_set, ensemble_allowed, set_intersection, self_ensembles.
  destruct arg as [| |e|l]; [destruct (ensembles self)| | |].
  all: rewrite ?elem_of_remove_dups, ?list_elem_of_intersection,
         ?elem_of_ens_samples, ?elem_of_rep_samples.
  all: rewrite ?list_elem_of_singleton.
  all: tauto.
Qed.

(** X6: a sample that [select_sample] returns is a sample of the global
    state, of a replica and of an ensemble the mover admits. *)
Theorem select_sample_legal {E} (self : PathMover) (globalstate : SampleSet)
    (arg : ensembles_arg) (w : world E) (s : Sample) (w' : world E) :
  select_sample self globalstate arg w = (Ok s, w') ->
  s ∈ globalstate /\ replica_allowed self s /\ ensemble_allowed self arg s.
Proof.
  intros H. apply select_sample_Ok in H as [H _].
  by apply legal_sample_set_sound.
Qed.

Lemma select_sample_legal_witness :
  Fixture.sample0 ∈ [Fixture.sample0; Fixture.sample1]
  /\ replica_allowed (Fixture.all_movers 0) Fixture.sample0
  /\ ensemble_allowed (Fixture.all_movers 0) (ArgEns 0) Fixture.sample0.
Proof.
  pose (w := Fixture.world_of [] 0).
  apply (select_sample_legal (Fixture.all_movers 0)
           [Fixture.sample0; Fixture.sample1] (ArgEns 0) w Fixture.sample0
           (select_sample (Fixture.all_movers 0)
              [Fixture.sample0; Fixture.sample1] (ArgEns 0) w).2).
  reflexivity.
Defined.

(** ** Outcomes: what a move returns and what it raises *)

Section Outcomes.
Context {E : Type} {RT : Runtime E}.

Lemma outcome_bind {A B} (c : M E A) (k : A -> M E B) (w : world E)
    (Q' : A -> world E -> Prop) Q R :
  outcome c w Q' R ->
  (forall a w1, Q' a w1 -> outcome (k a) w1 Q R) ->
  outcome (c ≫= k) w Q R.
Proof.
  unfold outcome, mbind, M_bind. destruct (c w) as [[a|e] w1]; [|done].
  intros HQ Hk. by apply Hk.
Qed.

Lemma outcome_bind_weak {A B} (c : M E A) (k : A -> M E B) (w : world E)
    (Q' : A -> world E -> Prop) (R' : exn -> world E -> Prop) Q R :
  outcome c w Q' R' ->
  (forall e w1, R' e w1 -> R e w1) ->
  (forall a w1, Q' a w1 -> outcome (k a) w1 Q R) ->
  outcome (c ≫= k) w Q R.
Proof.
  unfold outcome, mbind, M_bind. destruct (c w) as [[a|e] w1].
  - intros HQ _ Hk. by apply Hk.
  - intros HR HRR _. by apply HRR.
Qed.


Lemma outcome_ret {A} (a : A) (w : world E) (Q : A -> world E -> Prop) R :
  Q a w -> outcome (mret a) w Q R.
Proof. done. Qed.

Lemma outcome_deref (g : loc) (w : world E) Q R :
  Q (default [] (heap w !! g)) w -> outcome (deref g) w Q R.
Proof. done. Qed.

Lemma outcome_deref_eq (g : loc) (w : world E) R :
  outcome (deref g) w
    (fun a w' => a = default [] (heap w !! g) /\ w' = w) R.
Proof. done. Qed.

Lemma outcome_lift_Ok {A} (a : A) (w : world E) R :
  outcome (lift (Ok a)) w (fun a' w' => a' = a /\ w' = w) R.
Proof. done. Qed.

Lemma outcome_new_details (d : MoveDetails) (w : world E) R :
  outcome (new_details d) w
    (fun l w' =>
       l = length (details_heap w)
       /\ heap w' = heap w /\ details_heap w' = details_heap w ++ [d]
       /\ np_random_state w' = np_random_state w /\ ext w' = ext w
       /\ random_state w' = random_state w) R.
Proof. done. Qed.

Lemma outcome_Ok {A} (c : M E A) (w : world E) Q R a w' :
  outcome c w Q R -> c w = (Ok a, w') -> Q a w'.
Proof. intros H Hc. unfold outcome in H. by rewrite Hc in H. Qed.

Lemma outcome_Raise {A} (c : M E A) (w : world E) Q R e w' :
  outcome c w Q R -> c w = (Raise e, w') -> R e w'.
Proof. intros H Hc. unfold outcome in H. by rewrite Hc in H. Qed.

Lemma outcome_py_index {A} (seq : list A) (i : Z) :
  match py_index seq i with
  | Ok x => x ∈ seq
  | Raise e => e = IndexError
  end.
Proof.
  destruct (py_index seq i) as [x|e] eqn:H; [by eapply py_index_Ok|].
  unfold py_index in H. destruct (_ && _)%bool; [|congruence].
  destruct (seq !! _); congruence.
Qed.

Lemma outcome_random_choice {A} (seq : list A) (w : world E) :
  outcome (random_choice seq) w
    (fun x w' => x ∈ seq /\ after_one_draw w w')
    (fun e w' => e = IndexError /\ after_one_draw w w').
Proof.
  unfold outcome, random_choice, mbind, M_bind, random_random, lift. simpl.
  pose proof (outcome_py_index seq
    (py_int (rng_stream (random_state w) (rng_pos (random_state w))
             * inject_Z (Z.of_nat (length seq))))) as H.
  destruct (py_index seq _); by repeat split.
Qed.

Lemma outcome_select_sample self gs arg (w : world E) :
  outcome (select_sample self gs arg) w
    (fun s w' => s ∈ legal_sample_set self gs arg /\ after_one_draw w w')
    (fun e w' => e = IndexError /\ after_one_draw w w').
Proof. apply outcome_random_choice. Qed.

(** X7: [PathReversalMover.move] either raises the [IndexError] of an
    empty or missed selection, or returns one sample for the replica and the
    ensemble of the sample it selected: the reversed trajectory when that is
    in the ensemble, with [accepted] true and [acceptance_probability] 1.0,
    and the selected trajectory otherwise, with [accepted] false and
    [acceptance_probability] 0.0. The details are a new object; one number
    of [random] is drawn and nothing else of the world changes. *)
Theorem PathReversalMover_move_outcome (self : PathMover) (globalstate : loc)
    (w : world E) :
  outcome (move (PathReversalMover self) globalstate) w
    (fun v w' =>
       exists (rep_sample : Sample) (d : MoveDetails),
         rep_sample ∈ legal_sample_set self
                        (default [] (heap w !! globalstate))
                        (self_ensembles self)
         /\ let t := trajectory rep_sample in
            let accepted := ensemble_call (ensemble rep_sample) (rev t) in
            v = PSample (mkSample (replica rep_sample)
                           (if accepted then rev t else t)
                           (ensemble rep_sample)
                           (Some (length (details_heap w))) None)
            /\ d !! "inputs" = Some (VTrajList [t])
            /\ d !! "trial" = Some (VTraj (rev t))
            /\ d !! "accepted" = Some (VBool accepted)
            /\ d !! "acceptance_probability"
               = Some (VFloat (if accepted then float_one else float_zero))
            /\ d !! "result" = Some (VTraj (if accepted then rev t else t))
            /\ d !! "mover" = Some (VMover (oid self))
            /\ after_draw_and_details w w' d)
    (fun e w' => e = IndexError /\ after_one_draw w w').
Proof.
  simpl. unfold PathReversalMover_move.
  eapply outcome_bind; [apply outcome_deref_eq|]. intros gs w1 [-> ->].
  eapply outcome_bind; [apply outcome_select_sample|].
  intros rep_sample w1 [Hin (Hh & Hd & Hn & He & Hr)]. cbv zeta.
  destruct MoveDetails_init_nil as [d0 ->].
  eapply outcome_bind; [apply outcome_lift_Ok|]. intros ? ? [-> ->].
  destruct (ensemble_call (ensemble rep_sample) (rev (trajectory rep_sample)))
    eqn:Hacc; attrs.
  - eapply outcome_bind; [apply outcome_lift_Ok|]. intros ? ? [-> ->].
    eapply outcome_bind; [apply outcome_new_details|].
    intros l w2 (-> & Hh2 & Hd2 & Hn2 & He2 & Hr2).
    apply outcome_ret.
    match type of Hd2 with _ = _ ++ [?d] => exists rep_sample, d end.
    split; [exact Hin|].
    cbv zeta. rewrite Hacc, Hd. split; [reflexivity|]. attrs.
    repeat (split; [reflexivity|]).
    unfold after_draw_and_details. rewrite Hh2, Hd2, Hn2, He2, Hr2.
    by rewrite Hh, Hd, Hn, He, Hr.
  - eapply outcome_bind; [apply outcome_lift_Ok|]. intros ? ? [-> ->].
    eapply outcome_bind; [apply outcome_new_details|].
    intros l w2 (-> & Hh2 & Hd2 & Hn2 & He2 & Hr2).
    apply outcome_ret.
    match type of Hd2 with _ = _ ++ [?d] => exists rep_sample, d end.
    split; [exact Hin|].
    cbv zeta. rewrite Hacc, Hd. split; [reflexivity|]. attrs.
    repeat (split; [reflexivity|]).
    unfold after_draw_and_details. rewrite Hh2, Hd2, Hn2, He2, Hr2.
    by rewrite Hh, Hd, Hn, He, Hr.
Qed.

Lemma after_one_draw_frame (w w1 : world E) :
  after_one_draw w w1 ->
  heap w1 = heap w /\ details_heap w1 = details_heap w
  /\ np_random_state w1 = np_random_state w /\ ext w1 = ext w.
Proof. by intros (? & ? & ? & ? & _). Qed.

(** X8: [EnsembleHopMover.move] picks a pair (from, to), selects a sample
    of the ensemble [from], and returns it with its replica and trajectory
    unchanged, under [to] when the trajectory is in [to] ([accepted] true)
    and under [from] otherwise ([accepted] false), with a new details
    object. It raises [TypeError] when the mover has no pairs ([None]) and
    [IndexError] when a selection has nothing to choose from; it never
    touches the sample sets, the details that exist, or numpy's random
    source. *)
Theorem EnsembleHopMover_move_outcome (self : PathMover)
    (pairs : option (list (ens * ens))) (bias : option float)
    (globalstate : loc) (w : world E) :
  outcome (move (EnsembleHopMover self pairs bias) globalstate) w
    (fun v w' =>
       exists (l : list (ens * ens)) (ens_from ens_to : ens)
              (rep_sample : Sample) (d : MoveDetails),
         pairs = Some l /\ (ens_from, ens_to) ∈ l
         /\ rep_sample ∈ default [] (heap w !! globalstate)
         /\ replica_allowed self rep_sample
         /\ ensemble rep_sample = ens_from
         /\ let t := trajectory rep_sample in
            let accepted := ensemble_call ens_to t in
            v = PSample (mkSample (replica rep_sample) t
                           (if accepted then ens_to else ens_from)
                           (Some (length (details_heap w))) None)
            /\ d !! "inputs" = Some (VTrajList [t])
            /\ d !! "result" = Some (VTraj t)
            /\ d !! "accepted" = Some (VBool accepted)
            /\ d !! "initial_ensemble" = Some (VEns ens_from)
            /\ d !! "trial_ensemble" = Some (VEns ens_to)
            /\ d !! "result_ensemble"
               = Some (VEns (if accepted then ens_to else ens_from))
            /\ heap w' = heap w
            /\ details_heap w' = details_heap w ++ [d]
            /\ np_random_state w' = np_random_state w
            /\ ext w' = ext w)
    (fun e w' =>
       (e = IndexError \/ (e = TypeError /\ pairs = None))
       /\ heap w' = heap w
       /\ details_heap w' = details_heap w
       /\ np_random_state w' = np_random_state w
       /\ ext w' = ext w).
Proof.
  simpl. unfold EnsembleHopMover_move.
  destruct pairs as [l|].
  - eapply outcome_bind_weak; [apply outcome_random_choice| |].
    { simpl. intros e w1 [-> Hw]. apply after_one_draw_frame in Hw.
      split; [by left|exact Hw]. }
    intros [ens_from ens_to] w1 [Hpair Hw1].
    apply after_one_draw_frame in Hw1 as (Hh1 & Hd1 & Hn1 & He1). cbv zeta.
    eapply outcome_bind; [apply outcome_deref_eq|]. intros gs w2 [-> ->].
    eapply outcome_bind_weak; [apply outcome_select_sample| |].
    { simpl. intros e w2 [-> Hw]. apply after_one_draw_frame in Hw
        as (Hh2 & Hd2 & Hn2 & He2).
      split; [by left|]. by rewrite Hh2, Hd2, Hn2, He2. }
    intros rep_sample w2 [Hin Hw2].
    apply after_one_draw_frame in Hw2 as (Hh2 & Hd2 & Hn2 & He2).
    rewrite Hh1 in Hin.
    apply legal_sample_set_sound in Hin as (Hgs & Hrep & Hens).
    simpl in Hens.
    destruct MoveDetails_init_nil as [d0 ->].
    eapply outcome_bind; [apply outcome_lift_Ok|]. intros ? ? [-> ->].
    eapply outcome_bind; [apply outcome_new_details|].
    intros l' w3 (-> & Hh3 & Hd3 & Hn3 & He3 & _).
    apply outcome_ret.
    match type of Hd3 with _ = _ ++ [?d] =>
      exists l, ens_from, ens_to, rep_sample, d end.
    do 5 (split; [done|]). cbv zeta. rewrite Hd2, Hd1.
    split; [reflexivity|]. attrs.
    repeat (split; [reflexivity|]).
    rewrite Hh3, Hd3, Hn3, He3. by rewrite Hh2, Hd2, Hn2, He2, Hd1.
  - unfold outcome, mbind, M_bind, random_random, lift. simpl.
    split; [by right|]. by repeat split.
Qed.


End Outcomes.

(** ** [MixedMover.move]: the choice of the sub-mover *)

Lemma partial_sum_S (weights : list float) (k : nat) (x : float) :
  weights !! S k = Some x ->
  partial_sum weights (S k) = float_add (partial_sum weights k) x.
Proof.
  destruct weights as [|w0 rest]; [done|]. simpl. intros Hk.
  by rewrite (take_S_r _ _ _ Hk), foldl_snoc.
Qed.

(** Adding a zero does not change how a float compares. *)
Lemma SFleb_add_zero (p rand : float) (s : bool) :
  SFleb (float_add p (S754_zero s)) rand = SFleb p rand.
Proof. by destruct p as [[|]|[|]| |sp mp ep], s. Qed.

(** The loop of [MixedMover.move], started at [idx] with the partial sum up
    to [idx]: it stops at the first index at which [prob <= rand] fails, and
    runs off the list when there is none. *)
Lemma pick_index_post (weights : list float) (rand : float) (steps : nat) :
  forall (idx : nat) (prob : float),
    idx < length weights ->
    prob = partial_sum weights idx ->
    length weights <= steps + idx ->
    (forall j, j < idx -> SFleb (partial_sum weights j) rand = true) ->
    match pick_index weights rand steps idx prob with
    | Ok i =>
        idx <= i < length weights
        /\ SFleb (partial_sum weights i) rand = false
        /\ forall j, j < i -> SFleb (partial_sum weights j) rand = true
    | Raise e =>
        e = IndexError
        /\ forall j,
             j < length weights -> SFleb (partial_sum weights j) rand = true
    end.
Proof.
  induction steps as [|steps IH]; intros idx prob Hidx -> Hsteps Hbelow.
  - lia.
  - cbn [pick_index].
    assert ((idx <? length weights) = true) as -> by by apply Nat.ltb_lt.
    rewrite andb_true_r.
    destruct (SFleb (partial_sum weights idx) rand) eqn:Hle.
    + assert (forall j,
                j < S idx -> SFleb (partial_sum weights j) rand = true)
        as Hbelow'.
      { intros j Hj. destruct (decide (j = idx)) as [->|]; [assumption|].
        apply Hbelow. lia. }
      destruct (weights !! S idx) as [x|] eqn:Hx.
      * pose proof (lookup_lt_Some _ _ _ Hx) as Hlt.
        specialize (IH (S idx) (float_add (partial_sum weights idx) x) Hlt
                      (eq_sym (partial_sum_S _ _ _ Hx)) ltac:(lia) Hbelow').
        destruct (pick_index weights rand steps (S idx) _) as [i|e];
          [|exact IH].
        destruct IH as (Hi & Hrand & Hj). split; [lia|]. by split.
      * split; [reflexivity|]. intros j Hj. apply Hbelow'.
        apply lookup_ge_None in Hx. lia.
    + split; [lia|]. by split.
Qed.

(** X10: the sub-mover [MixedMover.move] chooses. With [rand] the scaled
    draw, the loop returns the first index at which the partial sum of the
    weights, added up in floats, is no longer [<= rand]; that index is
    within the weights, and unless it is the first one its weight is not
    zero: a later mover of weight 0.0 is never chosen. When [<= rand] holds
    of every partial sum, the loop runs off the list and raises
    [IndexError]. *)
Theorem pick_index_first_above (w0 : float) (rest : list float)
    (rand : float) :
  let weights := w0 :: rest in
  match pick_index weights rand (length weights) 0 w0 with
  | Ok i =>
      i < length weights
      /\ SFleb (partial_sum weights i) rand = false
      /\ (forall j, j < i -> SFleb (partial_sum weights j) rand = true)
      /\ (0 < i -> forall s, weights !! i <> Some (S754_zero s))
  | Raise e =>
      e = IndexError
      /\ forall j,
           j < length weights -> SFleb (partial_sum weights j) rand = true
  end.
Proof.
  intros weights.
  pose proof (pick_index_post weights rand (length weights) 0 w0) as H.
  specialize (H ltac:(simpl; lia) eq_refl ltac:(lia) ltac:(lia)).
  destruct (pick_index weights rand (length weights) 0 w0) as [i|e];
    [|exact H].
  destruct H as (Hi & Hrand & Hbelow).
  split; [lia|]. split; [assumption|]. split; [assumption|].
  intros Hpos s Hx. destruct i as [|k]; [lia|].
  rewrite (partial_sum_S _ _ _ Hx), SFleb_add_zero in Hrand.
  rewrite Hbelow in Hrand by lia. discriminate Hrand.
Qed.

Section Mixed.
Context {E : Type} {RT : Runtime E}.

Lemma py_index_0_Ok {A} (seq : list A) (x : A) :
  py_index seq 0 = Ok x -> exists rest, seq = x :: rest.
Proof.
  destruct seq as [|y rest]; [by rewrite py_index_nil|].
  rewrite py_index_0. intros [= ->]. by exists rest.
Qed.

(** What a returning [MixedMover.move] did: it drew one number from
    numpy's source, chose an index, ran that sub-mover, wrote the index into
    the details of the sample it got, and returned a sample that refers to
    these details. *)
Lemma MixedMover_move_Ok (mv : mover E -> loc -> M E pyval) self movers
    weights g (w : world E) v w' :
  MixedMover_move mv self movers weights g w = (Ok v, w') ->
  exists w0 rest idx m s l w1 w2,
    weights = w0 :: rest
    /\ pick_index weights
         (float_mul
            (unit_float
               (rng_stream (np_random_state w) (rng_pos (np_random_state w))))
            (py_sum weights)) (length weights) 0 w0 = Ok idx
    /\ movers !! idx = Some m
    /\ heap w1 = heap w /\ details_heap w1 = details_heap w
    /\ ext w1 = ext w
    /\ mv m g w1 = (Ok (PSample s), w2)
    /\ details s = Some l
    /\ v = PSample (mkSample (replica s) (trajectory s) (ensemble s)
                      (Some l) None)
    /\ details_heap w'
       = alter (fun d => setattr d "mover_idx" (VInt (Z.of_nat idx))) l
           (details_heap w2)
    /\ heap w' = heap w2 /\ random_state w' = random_state w2
    /\ np_random_state w' = np_random_state w2 /\ ext w' = ext w2.
Proof.
  intros H. unfold MixedMover_move in H.
  apply bind_Ok in H as (r & w1 & Hr & H).
  apply np_random_random_Ok in Hr as (-> & _ & _ & Hheap & _ & Hext & Hdh).
  cbv zeta in H.
  apply bind_Ok in H as (prob & w2 & Hprob & H).
  apply lift_Ok in Hprob as [Hprob ->].
  apply py_index_0_Ok in Hprob as [rest ->].
  apply bind_Ok in H as (idx & w2 & Hidx & H).
  apply lift_Ok in Hidx as [Hidx ->].
  apply bind_Ok in H as (sample & w2 & Hm & H).
  apply move_nth_Ok in Hm as [(m & Hm & Hmv)|(_ & [=] & _)].
  apply bind_Ok in H as ([s l] & w3 & Hsd & H).
  apply lift_Ok in Hsd as [Hsd ->].
  apply bind_Ok in H as (u & w3 & Hset & H).
  apply details_setattr_Ok in Hset as (Hdh3 & Hheap3 & Hr3 & Hn3 & He3).
  apply ret_Ok in H as [-> ->].
  unfold sample_details in Hsd.
  destruct sample as [|s'|]; try discriminate Hsd.
  destruct (details s') as [l'|] eqn:Hd; [|discriminate Hsd].
  injection Hsd as <- <-.
  by exists prob, rest, idx, m, s', l', w1, w2.
Qed.

(** X11: when [MixedMover.move] returns, it returns a sample with the
    replica, the trajectory and the ensemble of the sample that the
    sub-mover at the index it chose returned, and with the same details
    object. This object it has changed in place: [mover_idx] is the index,
    every other attribute is as the sub-mover left it; no other details
    object and no sample set is touched after the sub-mover ran. The index
    is within the weights and the movers. *)
Theorem MixedMover_move_tags (self : PathMover) (movers : list (mover E))
    (weights : list float) (globalstate : loc) (w : world E) (v : pyval)
    (w' : world E) :
  move (MixedMover self movers weights) globalstate w = (Ok v, w') ->
  exists (idx : nat) (m : mover E) (s s' : Sample) (l : dref)
         (w1 w2 : world E),
    movers !! idx = Some m /\ idx < length weights
    /\ heap w1 = heap w /\ details_heap w1 = details_heap w
    /\ move m globalstate w1 = (Ok (PSample s), w2)
    /\ v = PSample s'
    /\ replica s' = replica s /\ trajectory s' = trajectory s
    /\ ensemble s' = ensemble s
    /\ details s = Some l /\ details s' = Some l
    /\ heap w' = heap w2
    /\ (forall d,
          details_heap w2 !! l = Some d ->
          exists d',
            details_heap w' !! l = Some d'
            /\ d' !! "mover_idx" = Some (VInt (Z.of_nat idx))
            /\ forall k, k <> "mover_idx" -> d' !! k = d !! k)
    /\ (forall l' : dref,
          l' <> l -> details_heap w' !! l' = details_heap w2 !! l').
Proof.
  intros H. simpl in H.
  apply MixedMover_move_Ok in H
    as (w0 & rest & idx & m & s & l & w1 & w2 & -> & Hidx & Hm & Hheap & Hdh
        & _ & Hmv & Hd & -> & Hdh' & Hheap' & _).
  pose proof (pick_index_post (w0 :: rest)
                (float_mul
                   (unit_float
                      (rng_stream (np_random_state w)
                         (rng_pos (np_random_state w))))
                   (py_sum (w0 :: rest)))
                (length (w0 :: rest)) 0 w0
                ltac:(simpl; lia) eq_refl ltac:(lia) ltac:(lia)) as Hpost.
  rewrite Hidx in Hpost. destruct Hpost as ([_ Hlt] & _).
  eexists idx, m, s, _, l, w1, w2.
  do 5 (split; [done|]). split; [reflexivity|]. simpl.
  do 6 (split; [done|]). rewrite Hdh'. split.
  - intros d Hl. eexists. rewrite list_lookup_alter_eq, Hl. simpl.
    split; [reflexivity|]. split.
    + apply lookup_setattr_eq.
    + intros k Hk. by apply lookup_setattr_ne.
  - intros l' Hl'. by apply list_lookup_alter_ne.
Qed.

End Mixed.

Lemma MixedMover_move_tags_witness :
  let movers := [ForwardShootMover (Fixture.all_movers 7) 5;
                 PathReversalMover (Fixture.all_movers 8)] in
  let weights := [float_one; float_one] in
  let w := Fixture.world_of [Fixture.sample0] (1 # 2) in
  exists v w',
    move (RT := Fixture.source_runtime)
      (MixedMover (Fixture.all_movers 9) movers weights) 0 w = (Ok v, w')
    /\ exists (idx : nat) (m : mover Fixture.E) (s s' : Sample) (l : dref)
              (w1 w2 : world Fixture.E),
         movers !! idx = Some m /\ idx < length weights
         /\ heap w1 = heap w /\ details_heap w1 = details_heap w
         /\ move (RT := Fixture.source_runtime) m 0 w1 = (Ok (PSample s), w2)
         /\ v = PSample s'
         /\ replica s' = replica s /\ trajectory s' = trajectory s
         /\ ensemble s' = ensemble s
         /\ details s = Some l /\ details s' = Some l
         /\ heap w' = heap w2
         /\ (forall d,
               details_heap w2 !! l = Some d ->
               exists d',
                 details_heap w' !! l = Some d'
                 /\ d' !! "mover_idx" = Some (VInt (Z.of_nat idx))
                 /\ forall k, k <> "mover_idx" -> d' !! k = d !! k)
         /\ (forall l' : dref,
               l' <> l -> details_heap w' !! l' = details_heap w2 !! l').
Proof.
  intros movers weights w.
  pose (r := move (RT := Fixture.source_runtime)
               (MixedMover (Fixture.all_movers 9) movers weights) 0 w).
  exists (Fixture.value_of r), r.2.
  split; [reflexivity|].
  apply (MixedMover_move_tags (RT := Fixture.source_runtime)
           (Fixture.all_movers 9) movers weights 0 w (Fixture.value_of r)
           r.2).
  reflexivity.
Defined.

(** ** Samples stay in their ensembles *)

Section Invariant.
Context {E : Type} {RT : Runtime E}.

Lemma PathReversalMover_move_sample self g (w : world E) v w' :
  move (PathReversalMover self) g w = (Ok v, w') ->
  exists rep_sample d,
    rep_sample ∈ legal_sample_set self (default [] (heap w !! g))
                   (self_ensembles self)
    /\ v = PSample
             (mkSample (replica rep_sample)
                (if ensemble_call (ensemble rep_sample)
                      (rev (trajectory rep_sample))
                 then rev (trajectory rep_sample)
                 else trajectory rep_sample)
                (ensemble rep_sample) (Some d) None).
Proof.
  intros H. simpl in H. unfold PathReversalMover_move in H.
  apply bind_Ok in H as (gs & w1 & Hgs & H). apply deref_Ok in Hgs as [-> ->].
  apply bind_Ok in H as (rep_sample & w1 & Hsel & H).
  apply select_sample_Ok in Hsel as (Hin & _).
  cbv zeta in H.
  apply bind_Ok in H as (d0 & w2 & _ & H).
  apply bind_Ok in H as (result & w3 & Hres & H).
  apply lift_Ok in Hres as [Hres _]. apply ret_Ok in H as [-> _].
  exists rep_sample.
  destruct (ensemble_call (ensemble rep_sample) (rev (trajectory rep_sample)));
    revert Hres; attrs; intros [= <-]; eexists; by split.
Qed.

Lemma EnsembleHopMover_move_sample self pairs bias g (w : world E) v w' :
  move (EnsembleHopMover self pairs bias) g w = (Ok v, w') ->
  exists ens_from ens_to rep_sample d,
    rep_sample ∈ legal_sample_set self (default [] (heap w !! g))
                   (ArgEns ens_from)
    /\ v = PSample
             (mkSample (replica rep_sample) (trajectory rep_sample)
                (if ensemble_call ens_to (trajectory rep_sample)
                 then ens_to else ens_from)
                (Some d) None).
Proof.
  intros H. simpl in H. unfold EnsembleHopMover_move in H.
  apply bind_Ok in H as ([ens_from ens_to] & w1 & Hpair & H).
  assert (heap w1 = heap w) as Hheap.
  { destruct pairs as [l|].
    - by apply random_choice_Ok in Hpair as (_ & ? & _).
    - apply bind_Ok in Hpair as (? & ? & _ & Hpair).
      apply lift_Ok in Hpair as [[=] _]. }
  cbv zeta in H.
  apply bind_Ok in H as (gs & w2 & Hgs & H). apply deref_Ok in Hgs as [-> ->].
  apply bind_Ok in H as (rep_sample & w2 & Hsel & H).
  apply select_sample_Ok in Hsel as (Hin & _). rewrite Hheap in Hin.
  apply bind_Ok in H as (d0 & w3 & _ & H).
  apply ret_Ok in H as [-> _]. simpl.
  by eexists ens_from, ens_to, rep_sample, _.
Qed.

(** X12: shooting, path reversal, ensemble hop and the mixtures of these
    keep samples in their ensembles: when every sample of the global state
    has its trajectory in its ensemble, so has the sample the move
    returns. *)
Theorem proposes_one_keeps_ensemble (m : mover E) :
  proposes_one m = true ->
  forall (globalstate : loc) (w : world E) (v : pyval) (w' : world E),
    (forall s, s ∈ default [] (heap w !! globalstate) -> in_its_ensemble s) ->
    move m globalstate w = (Ok v, w') ->
    exists s, v = PSample s /\ in_its_ensemble s.
Proof.
  induction m as [m IH] using mover_sub_ind.
  intros Hm g w v w' Hvalid H.
  assert (forall generate self selector,
            generates generate ->
            ShootMover_move generate self selector g w = (Ok v, w') ->
            exists s, v = PSample s /\ in_its_ensemble s) as Hshoot.
  { intros generate self selector Hgen Hmove.
    apply (ShootMover_move_Ok _ _ _ _ _ _ _ Hgen) in Hmove
      as (rep_sample & sp & fp & trial & d & acc & Hin & _ & _ & _ & _ & _
          & _ & _ & _ & -> & _ & _ & _ & Hdec).
    eexists. split; [reflexivity|]. unfold in_its_ensemble. simpl.
    apply legal_sample_set_sound in Hin as (Hgs & _).
    destruct (ensemble_call (ensemble rep_sample) trial) eqn:Hens.
    - destruct acc; [assumption|by apply Hvalid].
    - destruct Hdec as [-> _]. by apply Hvalid. }
  destruct m; simpl in Hm; try discriminate Hm.
  - eapply Hshoot; [apply ForwardShootMover_generates|exact H].
  - eapply Hshoot; [apply BackwardShootMover_generates|exact H].
  - simpl in H, IH.
    apply MixedMover_move_Ok in H
      as (w0 & rest & idx & m & s & l & w1 & w2 & _ & _ & Hidx & Hheap & _
          & _ & Hmv & _ & -> & _).
    rewrite Forall_forall in IH.
    pose proof (list_elem_of_lookup_2 _ _ _ Hidx) as Hmem.
    assert (proposes_one m = true) as Hpm.
    { rewrite forallb_forall in Hm. apply Hm. by apply list_elem_of_In. }
    destruct (IH m Hmem Hpm g w1 (PSample s) w2) as (s' & [= <-] & Hs').
    + by rewrite Hheap.
    + exact Hmv.
    + eexists. split; [reflexivity|]. exact Hs'.
  - apply EnsembleHopMover_move_sample in H
      as (ens_from & ens_to & rep_sample & d & Hin & ->).
    eexists. split; [reflexivity|]. unfold in_its_ensemble. simpl.
    apply legal_sample_set_sound in Hin as (Hgs & _ & Hens). simpl in Hens.
    destruct (ensemble_call ens_to (trajectory rep_sample)) eqn:Hto;
      [assumption|].
    rewrite <- Hens. by apply Hvalid.
  - apply PathReversalMover_move_sample in H as (rep_sample & d & Hin & ->).
    eexists. split; [reflexivity|]. unfold in_its_ensemble. simpl.
    apply legal_sample_set_sound in Hin as (Hgs & _).
    destruct (ensemble_call (ensemble rep_sample)
                (rev (trajectory rep_sample))) eqn:Hrev;
      [assumption|by apply Hvalid].
Qed.

End Invariant.

Lemma proposes_one_keeps_ensemble_witness :
  let m := MixedMover (Fixture.all_movers 9)
             [ForwardShootMover (Fixture.all_movers 7) 5;
              EnsembleHopMover (Fixture.all_movers 8) (Some [(0, 1)]) None]
             [float_one; float_one] in
  let w := Fixture.world_of [Fixture.sample0] (1 # 2) in
  exists v w',
    move (RT := Fixture.source_runtime) m 0 w = (Ok v, w')
    /\ exists s, v = PSample s
                 /\ in_its_ensemble (RT := Fixture.source_runtime) s.
Proof.
  intros m w.
  pose (r := move (RT := Fixture.source_runtime) m 0 w).
  exists (Fixture.value_of r), r.2.
  split; [reflexivity|].
  apply (proposes_one_keeps_ensemble (RT := Fixture.source_runtime) m
           eq_refl 0 w (Fixture.value_of r) r.2).
  - intros s Hs. simpl in Hs. apply list_elem_of_singleton in Hs as ->.
    reflexivity.
  - reflexivity.
Defined.

(** ** Shooting: the trial and the failures *)

Section Trials.
Context {E : Type} {RT : Runtime E}.

(** The call of [_generate] inside a returning shooting move: the details it
    is given carry the selected trajectory as [start] and the picked point as
    [start_point]; the returned sample's details agree with the details it
    hands back on the attributes of the shot. *)
Lemma ShootMover_move_generate generate self selector g (w : world E) v w' :
  ShootMover_move generate self selector g w = (Ok v, w') ->
  exists rep_sample sp d_in w1 d_out w2 s d,
    rep_sample ∈ legal_sample_set self (default [] (heap w !! g))
                   (self_ensembles self)
    /\ get_traj d_in "start" = Ok (trajectory rep_sample)
    /\ get_point d_in "start_point" = Ok sp
    /\ generate d_in (ensemble rep_sample) w1 = (Ok d_out, w2)
    /\ v = PSample s /\ details_of w' s = Some d
    /\ ensemble s = ensemble rep_sample
    /\ d !! "start" = d_out !! "start"
    /\ d !! "start_point" = d_out !! "start_point"
    /\ d !! "trial" = d_out !! "trial"
    /\ d !! "final_point" = d_out !! "final_point".
Proof.
  intros H. unfold ShootMover_move in H.
  apply bind_Ok in H as (gs & w1 & Hgs & H). apply deref_Ok in Hgs as [-> ->].
  apply bind_Ok in H as (rep_sample & w1 & Hsel & H).
  apply select_sample_Ok in Hsel as (Hin & _).
  cbv zeta in H.
  apply bind_Ok in H as (d0 & w2 & _ & H).
  apply bind_Ok in H as (start & w3 & Hst & H). apply lift_Ok in Hst as [Hst _].
  revert Hst. attrs. intros [= <-].
  apply bind_Ok in H as (sp & w4 & _ & H).
  apply bind_Ok in H as (d_out & w5 & Hg & H).
  apply bind_Ok in H as (trial & w6 & _ & H).
  apply bind_Ok in H as (start' & w7 & _ & H).
  apply bind_Ok in H as (d & w8 & Hd & H).
  apply bind_Ok in H as (result & w9 & _ & H).
  apply bind_Ok in H as (l & w10 & Hl & H).
  apply new_details_Ok in Hl as (-> & Hdh & _).
  apply ret_Ok in H as [-> ->].
  match type of Hg with
  | generate ?d_in _ _ = _ => exists rep_sample, sp, d_in, w4, d_out, w5
  end.
  eexists _, d.
  split; [exact Hin|]. split; [by attrs|]. split; [by attrs|].
  split; [exact Hg|]. split; [reflexivity|].
  split; [by eapply details_of_new|]. split; [reflexivity|].
  destruct (ensemble_call (ensemble rep_sample) trial).
  - apply bind_Ok in Hd as (rand & w11 & _ & Hd).
    apply bind_Ok in Hd as (sel_prob & w12 & _ & Hd).
    apply bind_Ok in Hd as (ratio & w13 & _ & Hd).
    destruct (SFltb rand ratio).
    + apply bind_Ok in Hd as (trial' & w14 & _ & Hd).
      apply ret_Ok in Hd as [-> _]. by attrs.
    + apply ret_Ok in Hd as [-> _]. by attrs.
  - apply ret_Ok in Hd as [-> _]. by attrs.
Qed.

Lemma get_traj_Ok (d : MoveDetails) k t :
  get_traj d k = Ok t -> d !! k = Some (VTraj t).
Proof.
  unfold get_traj, getattr. destruct (d !! k) as [[]|]; simpl; congruence.
Qed.

Lemma get_point_Ok (d : MoveDetails) k p :
  get_point d k = Ok p -> d !! k = Some (VPoint p).
Proof.
  unfold get_point, getattr. destruct (d !! k) as [[]|]; simpl; congruence.
Qed.

Lemma py_slice_to_length {A} (seq : list A) (i : Z) :
  (0 <= i <= Z.of_nat (length seq))%Z ->
  Z.of_nat (length (py_slice_to seq i)) = i.
Proof.
  intros Hi. unfold py_slice_to, py_slice_bound.
  destruct (i <? 0)%Z eqn:Hneg; [lia|]. rewrite length_take. lia.
Qed.

(** X13: the trial of a forward shot. The frames of the start trajectory
    before the shooting point are kept, in front of the frames the engine
    generated from the snapshot of the shooting point; the final shooting
    point sits on the trial at the index of the start point. For an index
    within the trajectory, as many frames are kept as the index says. *)
Theorem ForwardShootMover_move_trial (self : PathMover) (selector : nat)
    (globalstate : loc) (w : world E) (v : pyval) (w' : world E) :
  move (ForwardShootMover self selector) globalstate w = (Ok v, w') ->
  exists (s : Sample) (d : MoveDetails) (start partial_trajectory : Trajectory)
         (sp : ShootingPoint) (e : E),
    v = PSample s /\ details_of w' s = Some d
    /\ d !! "start" = Some (VTraj start)
    /\ d !! "start_point" = Some (VPoint sp)
    /\ let kept := py_slice_to start (index sp) in
       let trial := kept ++ partial_trajectory in
       partial_trajectory
       = (engine_generate (snapshot sp)
            [forward_can_append (ensemble s) kept; length_can_append] e).1
       /\ d !! "trial" = Some (VTraj trial)
       /\ d !! "final_point"
          = Some (VPoint (mkShootingPoint selector trial (index sp)))
       /\ kept `prefix_of` start
       /\ kept `prefix_of` trial
       /\ ((0 <= index sp <= Z.of_nat (length start))%Z ->
           Z.of_nat (length kept) = index sp).
Proof.
  intros H. simpl in H.
  apply ShootMover_move_generate in H
    as (rep_sample & sp & d_in & w1 & d_out & w2 & s & d & _ & Hstart & Hsp
        & Hg & -> & Hd & Hens & Hk1 & Hk2 & Hk3 & Hk4).
  unfold ForwardShootMover_generate in Hg. rewrite Hsp, Hstart in Hg.
  apply bind_Ok in Hg as (? & ? & Hx & Hg). apply lift_Ok in Hx as [[= <-] ->].
  apply bind_Ok in Hg as (? & ? & Hx & Hg). apply lift_Ok in Hx as [[= <-] ->].
  apply bind_Ok in Hg as (partial & w3 & Hgen & Hg).
  apply call_ext_Ok in Hgen as (Hgen & _).
  apply ret_Ok in Hg as [-> _].
  apply get_traj_Ok in Hstart. apply get_point_Ok in Hsp.
  revert Hk1 Hk2 Hk3 Hk4. attrs. rewrite Hstart, Hsp.
  intros Hk1 Hk2 Hk3 Hk4.
  exists s, d, (trajectory rep_sample), partial, sp, (ext w1).
  split; [reflexivity|]. split; [exact Hd|].
  split; [exact Hk1|]. split; [exact Hk2|]. cbv zeta.
  split; [by rewrite Hens, Hgen|]. split; [exact Hk3|]. split; [exact Hk4|].
  split; [apply prefix_take|]. split; [by apply prefix_app_r|].
  apply py_slice_to_length.
Qed.

(** X14: the trial of a backward shot. The frames of the start trajectory
    after the shooting point are kept, behind the reversal of the frames the
    engine generated from the reversed snapshot of the shooting point; the
    final shooting point sits on the trial at the last generated frame,
    index [len(partial) - 1], which is where the kept frames begin, less
    one. *)
Theorem BackwardShootMover_move_trial (self : PathMover) (selector : nat)
    (globalstate : loc) (w : world E) (v : pyval) (w' : world E) :
  move (BackwardShootMover self selector) globalstate w = (Ok v, w') ->
  exists (s : Sample) (d : MoveDetails) (start partial_trajectory : Trajectory)
         (sp : ShootingPoint) (e : E),
    v = PSample s /\ details_of w' s = Some d
    /\ d !! "start" = Some (VTraj start)
    /\ d !! "start_point" = Some (VPoint sp)
    /\ let kept := py_slice_from start (index sp + 1) in
       let trial := rev partial_trajectory ++ kept in
       partial_trajectory
       = (engine_generate (reversed_copy (snapshot sp))
            [backward_can_prepend (ensemble s) kept; length_can_prepend] e).1
       /\ d !! "trial" = Some (VTraj trial)
       /\ d !! "final_point"
          = Some (VPoint (mkShootingPoint selector trial
                            (Z.of_nat (length partial_trajectory) - 1)))
       /\ kept `suffix_of` start
       /\ kept `suffix_of` trial
       /\ length trial = length partial_trajectory + length kept.
Proof.
  intros H. simpl in H.
  apply ShootMover_move_generate in H
    as (rep_sample & sp & d_in & w1 & d_out & w2 & s & d & _ & Hstart & Hsp
        & Hg & -> & Hd & Hens & Hk1 & Hk2 & Hk3 & Hk4).
  unfold BackwardShootMover_generate in Hg. rewrite Hsp, Hstart in Hg.
  apply bind_Ok in Hg as (? & ? & Hx & Hg). apply lift_Ok in Hx as [[= <-] ->].
  apply bind_Ok in Hg as (? & ? & Hx & Hg). apply lift_Ok in Hx as [[= <-] ->].
  apply bind_Ok in Hg as (partial & w3 & Hgen & Hg).
  apply call_ext_Ok in Hgen as (Hgen & _).
  apply ret_Ok in Hg as [-> _].
  apply get_traj_Ok in Hstart. apply get_point_Ok in Hsp.
  revert Hk1 Hk2 Hk3 Hk4. attrs. rewrite Hstart, Hsp.
  intros Hk1 Hk2 Hk3 Hk4.
  exists s, d, (trajectory rep_sample), partial, sp, (ext w1).
  split; [reflexivity|]. split; [exact Hd|].
  split; [exact Hk1|]. split; [exact Hk2|]. cbv zeta.
  split; [by rewrite Hens, Hgen|]. split; [exact Hk3|]. split; [exact Hk4|].
  split; [apply suffix_drop|]. split; [by apply suffix_app_r|].
  by rewrite length_app, length_rev.
Qed.

End Trials.

Lemma ForwardShootMover_move_trial_witness :
  let w := Fixture.world_of [Fixture.sample0] (1 # 2) in
  exists v w',
    move (RT := Fixture.source_runtime)
      (ForwardShootMover (Fixture.all_movers 7) 5) 0 w = (Ok v, w')
    /\ exists (s : Sample) (d : MoveDetails)
              (start partial_trajectory : Trajectory) (sp : ShootingPoint)
              (e : Fixture.E),
         v = PSample s /\ details_of w' s = Some d
         /\ d !! "start" = Some (VTraj start)
         /\ d !! "start_point" = Some (VPoint sp)
         /\ let kept := py_slice_to start (index sp) in
            let trial := kept ++ partial_trajectory in
            partial_trajectory
            = (engine_generate (Runtime := Fixture.source_runtime)
                 (snapshot (Runtime := Fixture.source_runtime) sp)
                 [forward_can_append (Runtime := Fixture.source_runtime)
                    (ensemble s) kept;
                  length_can_append (Runtime := Fixture.source_runtime)] e).1
            /\ d !! "trial" = Some (VTraj trial)
            /\ d !! "final_point"
               = Some (VPoint (mkShootingPoint 5 trial (index sp)))
            /\ kept `prefix_of` start
            /\ kept `prefix_of` trial
            /\ ((0 <= index sp <= Z.of_nat (length start))%Z ->
                Z.of_nat (length kept) = index sp).
Proof.
  intros w.
  pose (r := move (RT := Fixture.source_runtime)
               (ForwardShootMover (Fixture.all_movers 7) 5) 0 w).
  exists (Fixture.value_of r), r.2.
  split; [reflexivity|].
  apply (ForwardShootMover_move_trial (RT := Fixture.source_runtime)
           (Fixture.all_movers 7) 5 0 w (Fixture.value_of r) r.2).
  reflexivity.
Defined.

Lemma BackwardShootMover_move_trial_witness :
  let w := Fixture.world_of [Fixture.sample0] (1 # 2) in
  exists v w',
    move (RT := Fixture.source_runtime)
      (BackwardShootMover (Fixture.all_movers 7) 5) 0 w = (Ok v, w')
    /\ exists (s : Sample) (d : MoveDetails)
              (start partial_trajectory : Trajectory) (sp : ShootingPoint)
              (e : Fixture.E),
         v = PSample s /\ details_of w' s = Some d
         /\ d !! "start" = Some (VTraj start)
         /\ d !! "start_point" = Some (VPoint sp)
         /\ let kept := py_slice_from start (index sp + 1) in
            let trial := rev partial_trajectory ++ kept in
            partial_trajectory
            = (engine_generate (Runtime := Fixture.source_runtime)
                 (reversed_copy (Runtime := Fixture.source_runtime)
                    (snapshot (Runtime := Fixture.source_runtime) sp))
                 [backward_can_prepend (Runtime := Fixture.source_runtime)
                    (ensemble s) kept;
                  length_can_prepend (Runtime := Fixture.source_runtime)] e).1
            /\ d !! "trial" = Some (VTraj trial)
            /\ d !! "final_point"
               = Some (VPoint (mkShootingPoint 5 trial
                                 (Z.of_nat (length partial_trajectory) - 1)))
            /\ kept `suffix_of` start
            /\ kept `suffix_of` trial
            /\ length trial = length partial_trajectory + length kept.
Proof.
  intros w.
  pose (r := move (RT := Fixture.source_runtime)
               (BackwardShootMover (Fixture.all_movers 7) 5) 0 w).
  exists (Fixture.value_of r), r.2.
  split; [reflexivity|].
  apply (BackwardShootMover_move_trial (RT := Fixture.source_runtime)
           (Fixture.all_movers 7) 5 0 w (Fixture.value_of r) r.2).
  reflexivity.
Defined.

Section Failures.
Context {E : Type} {RT : Runtime E}.






End Failures.

(** ** The partial-acceptance mover, and the details of a new sample *)

Section Returned.
Context {E : Type} {RT : Runtime E}.



(** X17: the details of a sample that a mover of the module returns are a
    new object: no sample of the global state, and nothing else that existed
    before the call, refers to it. *)
Theorem module_mover_new_details (m : mover E) (globalstate : loc)
    (w : world E) (s : Sample) (w' : world E) :
  module_mover m = true ->
  move m globalstate w = (Ok (PSample s), w') ->
  exists l : dref,
    details s = Some l
    /\ length (details_heap w) <= l < length (details_heap w')
    /\ forall (s0 : Sample) (l0 : dref),
         details s0 = Some l0 -> l0 < length (details_heap w) ->
         details s0 <> details s.
Proof.
  intros Hm H.
  destruct (module_move_details eq (fun d => eq_refl)
              (fun d1 d2 d3 H12 H23 => eq_trans H12 H23) m Hm) as [_ Hf].
  destruct (Hf globalstate w s w' H) as (l & Hl & Hge).
  exists l. split; [exact Hl|]. split; [exact Hge|].
  intros s0 l0 Hl0 Hvalid Heq. rewrite Hl, Hl0 in Heq.
  injection Heq as ->. lia.
Qed.

End Returned.


Lemma module_mover_new_details_witness :
  let m := MixedMover (Fixture.all_movers 9)
             [ForwardShootMover (Fixture.all_movers 7) 5;
              PathReversalMover (Fixture.all_movers 8)]
             [float_one; float_one] in
  let w := Fixture.world_of [Fixture.sample2] (1 # 2) in
  exists s w',
    move (RT := Fixture.source_runtime) m 0 w = (Ok (PSample s), w')
    /\ exists l : dref,
         details s = Some l
         /\ length (details_heap w) <= l < length (details_heap w')
         /\ forall (s0 : Sample) (l0 : dref),
              details s0 = Some l0 -> l0 < length (details_heap w) ->
              details s0 <> details s.
Proof.
  intros m w.
  pose (r := move (RT := Fixture.source_runtime) m 0 w).
  exists (Fixture.sample_of r), r.2.
  split; [reflexivity|].
  apply (module_mover_new_details (RT := Fixture.source_runtime) m 0 w
           (Fixture.sample_of r) r.2); reflexivity.
Defined.
